(** * wg-automation: peer address allocation and registration

    A shallow embedding of [main.py] (the WireGuard peer provisioning
    script) together with the parts of Python's [str] and [ipaddress]
    that the script calls, and the properties of the allocation and
    registration pipeline proved over that embedding. *)

From Stdlib Require Import ZArith List String Ascii Lia DecimalString.
From stdpp Require Import base tactics option list list_numbers gmap sets strings.

Local Open Scope string_scope.
Local Open Scope Z_scope.

(** ** Exceptions and results *)

(** The exceptions the script can end with.  [Exception] and
    [AssertionError] carry the message written in [main.py];
    [ValueError] is what [ipaddress.ip_address] / [ipaddress.ip_network]
    raise and carries the rejected text; [UnicodeDecodeError] is raised
    when a file opened with [encoding="utf-8"] holds other bytes and
    carries the path of the file; [CalledProcessError] is raised by
    [subprocess.check_output] on a non-zero exit status; [OSError] stands
    for the exceptions of the calls that change the file system, with the
    error number, which selects the subclass Python raises, and the
    path. *)
Inductive exn : Type :=
  | Exception (msg : string)
  | AssertionError (msg : string)
  | ValueError (text : string)
  | UnicodeDecodeError (path : string)
  | IndexError
  | CalledProcessError (returncode : Z) (cmd : list string)
  | OSError (errno : Z) (path : string).

(** The subclasses of [OSError] for [EEXIST] and [ENOENT]. *)
Definition FileExistsError (path : string) : exn := OSError 17 path.
Definition FileNotFoundError (path : string) : exn := OSError 2 path.

Inductive result (A : Type) : Type :=
  | Ok (a : A)
  | Err (e : exn).
Arguments Ok {A} a.
Arguments Err {A} e.

Definition rbind {A B} (r : result A) (k : A -> result B) : result B :=
  match r with
  | Ok a => k a
  | Err e => Err e
  end.

Definition rmap {A B} (f : A -> B) (r : result A) : result B :=
  rbind r (fun a => Ok (f a)).

(** The error names of the specification, as the exceptions of the code. *)
Definition InterfaceNotFound : exn := Exception "Cannot find interface name.".
Definition PublicKeyNotFound : exn := Exception "Cannot find server public key".
Definition AddressDirectiveMissing : exn := Exception "Address not found!".
Definition PoolExhausted : exn := Exception "All valid IPs are used.".
Definition RegistrationFailed : exn := AssertionError "inserting new peer failed.".
Definition PersistFailed : exn := AssertionError "saving new config failed.".
Definition EmptyStatus : exn := AssertionError "Empty output from `wg show` command.".

(** ** Python [str] operations

    A [string] is read as Python text whose code points are below 256. *)
Module Str.

Definition newline : ascii := "010"%char.

Definition is_empty (s : string) : bool :=
  match s with
  | EmptyString => true
  | String _ _ => false
  end.

(** [c.isspace()] for a code point below 256. *)
Definition isspace (c : ascii) : bool :=
  let n := N_of_ascii c in
  ((9 <=? n) && (n <=? 13) || (28 <=? n) && (n <=? 32)
   || (n =? 133) || (n =? 160))%N.

Definition isdigit (c : ascii) : bool :=
  let n := N_of_ascii c in ((48 <=? n) && (n <=? 57))%N.

(** [s.startswith(p)] *)
Definition startswith (p s : string) : bool := String.prefix p s.

(** [sub in s] *)
Fixpoint contains (sub s : string) : bool :=
  String.prefix sub s ||
  match s with
  | EmptyString => false
  | String _ s' => contains sub s'
  end.

(** A word in progress is only emitted when it has characters. *)
Definition emit (w : string) (ws : list string) : list string :=
  if is_empty w then ws else w :: ws.

(** [s.split()]: the maximal runs of non-whitespace characters.  The
    auxiliary scan returns the run that starts at the head of [s] and
    the runs after it. *)
Fixpoint split_scan (s : string) : string * list string :=
  match s with
  | EmptyString => (EmptyString, [])
  | String c s' =>
      let '(w, ws) := split_scan s' in
      if isspace c then (EmptyString, emit w ws) else (String c w, ws)
  end.

Definition split (s : string) : list string :=
  let '(w, ws) := split_scan s in emit w ws.

(** [s.split(sep)] for a one-character separator: never empty, and empty
    fields are kept. *)
Fixpoint split_on_scan (sep : ascii) (s : string) : string * list string :=
  match s with
  | EmptyString => (EmptyString, [])
  | String c s' =>
      let '(w, ws) := split_on_scan sep s' in
      if Ascii.eqb c sep then (EmptyString, w :: ws) else (String c w, ws)
  end.

Definition split_on (sep : ascii) (s : string) : list string :=
  let '(w, ws) := split_on_scan sep s in w :: ws.

(** [s.strip()] *)
Fixpoint lstrip (s : string) : string :=
  match s with
  | EmptyString => EmptyString
  | String c s' => if isspace c then lstrip s' else s
  end.

Fixpoint rstrip (s : string) : string :=
  match s with
  | EmptyString => EmptyString
  | String c s' =>
      let r := rstrip s' in
      if isspace c && is_empty r then EmptyString else String c r
  end.

Definition strip (s : string) : string := rstrip (lstrip s).

(** [f.readlines()] on the text of a file: every line keeps its
    terminating newline, the last one may lack it. *)
Fixpoint readlines_scan (s : string) : string * list string :=
  match s with
  | EmptyString => (EmptyString, [])
  | String c s' =>
      let '(w, ws) := readlines_scan s' in
      if Ascii.eqb c newline
      then (String c EmptyString, emit w ws)
      else (String c w, ws)
  end.

Definition readlines (s : string) : list string :=
  let '(w, ws) := readlines_scan s in emit w ws.

(** [s.isascii() and s.isdigit()] *)
Fixpoint all_digits (s : string) : bool :=
  match s with
  | EmptyString => true
  | String c s' => isdigit c && all_digits s'
  end.

Definition isascii_isdigit (s : string) : bool :=
  negb (is_empty s) && all_digits s.

(** [int(s)] on a string of ASCII digits. *)
Fixpoint int_from (acc : Z) (s : string) : Z :=
  match s with
  | EmptyString => acc
  | String c s' => int_from (10 * acc + (Z.of_N (N_of_ascii c) - 48)) s'
  end.

Definition int (s : string) : Z := int_from 0 s.

(** [str(n)] for an integer. *)
Definition of_int (n : Z) : string := NilZero.string_of_int (Z.to_int n).

(** [sep.join(parts)] *)
Fixpoint join (sep : string) (parts : list string) : string :=
  match parts with
  | [] => EmptyString
  | [p] => p
  | p :: ps => p +:+ sep +:+ join sep ps
  end.

(** [xs[-1]] and [xs[0]] *)
Definition last_item {A} (xs : list A) : result A :=
  match last xs with
  | Some x => Ok x
  | None => Err IndexError
  end.

Definition first_item {A} (xs : list A) : result A :=
  match xs with
  | x :: _ => Ok x
  | [] => Err IndexError
  end.

End Str.

(** ** Python's [textwrap.dedent]

    The function as CPython 3.9 to 3.13 has it, its regular expressions
    read as functions on the lines of the text: a line ends at a line
    feed, and the whitespace of an indentation is the space and the tab. *)
Module Textwrap.

(** The class [[ \t]]. *)
Definition is_blank (c : ascii) : bool :=
  Ascii.eqb c " " || Ascii.eqb c "009".

Fixpoint all_blank (s : string) : bool :=
  match s with
  | EmptyString => true
  | String c s' => is_blank c && all_blank s'
  end.

(** [_whitespace_only_re.sub('', text)] on one line: a line of blanks
    becomes empty. *)
Definition clear_blank (line : string) : string :=
  if all_blank line then EmptyString else line.

(** The group of [_leading_whitespace_re] on a line it matches: the
    blanks before the first other character. *)
Fixpoint leading_blanks (line : string) : string :=
  match line with
  | EmptyString => EmptyString
  | String c s' =>
      if is_blank c then String c (leading_blanks s') else EmptyString
  end.

(** [_leading_whitespace_re.findall(text)]: the expression matches once
    on every line that has a character other than a blank. *)
Definition indents (lines : list string) : list string :=
  leading_blanks <$> List.filter (fun line => negb (all_blank line)) lines.

(** The loop over [zip(margin, indent)]: the margin is cut where the two
    first differ, and is left as it is when they do not. *)
Fixpoint cut_at_mismatch (margin indent : string) : string :=
  match margin, indent with
  | String x margin', String y indent' =>
      if Ascii.eqb x y then String x (cut_at_mismatch margin' indent')
      else EmptyString
  | _, _ => margin
  end.

(** One round of the loop over the indentations. *)
Definition narrow (margin : option string) (indent : string) : option string :=
  match margin with
  | None => Some indent
  | Some m =>
      if Str.startswith m indent then Some m
      else if Str.startswith indent m then Some indent
      else Some (cut_at_mismatch m indent)
  end.

Definition find_margin (indents : list string) : option string :=
  fold_left narrow indents None.

Fixpoint drop_chars (p s : string) : string :=
  match p, s with
  | String _ p', String _ s' => drop_chars p' s'
  | _, _ => s
  end.

(** [re.sub(r'(?m)^' + margin, '', text)] on one line. *)
Definition strip_margin (margin line : string) : string :=
  if Str.startswith margin line then drop_chars margin line else line.

Definition unlines (lines : list string) : string :=
  Str.join (String Str.newline EmptyString) lines.

(** [textwrap.dedent(text)] *)
Definition dedent (text : string) : string :=
  let lines := clear_blank <$> Str.split_on Str.newline text in
  match find_margin (indents lines) with
  | Some margin =>
      if Str.is_empty margin then unlines lines
      else unlines (strip_margin margin <$> lines)
  | None => unlines lines
  end.

End Textwrap.

(** ** Python's [ipaddress]: constructor outcomes *)

(** How a constructor call ends: an object, an exception that makes the
    caller try the other IP version, or the plain [ValueError] of a
    strict network with host bits set. *)
Inductive outcome (A : Type) : Type :=
  | Built (a : A)
  | NotThisVersion
  | HostBitsSet.
Arguments Built {A} a.
Arguments NotThisVersion {A}.
Arguments HostBitsSet {A}.

(** ** Python's [ipaddress], IPv4 half

    Addresses are the 32-bit integers [_ip] of [IPv4Address] objects; a
    network is its (masked) network address and its prefix length.  The
    exceptions [AddressValueError] and [NetmaskValueError], which
    [ip_address] and [ip_network] catch to try the other IP version, appear
    as [None] / [NotThisVersion]. *)
Module IPv4.

Definition IPV4LENGTH : Z := 32.
Definition ALL_ONES : Z := 2 ^ IPV4LENGTH - 1.

(** [_parse_octet] *)
Definition parse_octet (octet_str : string) : option Z :=
  if Str.is_empty octet_str then None
  else if negb (Str.isascii_isdigit octet_str) then None
  else if (3 <? String.length octet_str)%nat then None
  else if negb (String.eqb octet_str "0") && Str.startswith "0" octet_str then None
  else
    let octet_int := Str.int octet_str in
    if 255 <? octet_int then None else Some octet_int.

(** [int.from_bytes(octets, 'big')] *)
Definition from_bytes (octets : list Z) : Z :=
  fold_left (fun acc b => 256 * acc + b) octets 0.

(** [_ip_int_from_string] *)
Definition ip_int_from_string (ip_str : string) : option Z :=
  if Str.is_empty ip_str then None
  else
    let octets := Str.split_on "." ip_str in
    if negb (length octets =? 4)%nat then None
    else from_bytes <$> mapM parse_octet octets.

(** [IPv4Address(addr_str)] *)
Definition address_of_string (addr_str : string) : option Z :=
  if Str.contains "/" addr_str then None else ip_int_from_string addr_str.

(** [ip_int.to_bytes(4, 'big')] and [_string_from_ip_int] *)
Definition to_bytes (ip_int : Z) : list Z :=
  [Z.land (Z.shiftr ip_int 24) 255; Z.land (Z.shiftr ip_int 16) 255;
   Z.land (Z.shiftr ip_int 8) 255; Z.land ip_int 255].

Definition string_from_ip_int (ip_int : Z) : string :=
  Str.join "." (Str.of_int <$> to_bytes ip_int).

(** [_ip_int_from_prefix] *)
Definition ip_int_from_prefix (prefixlen : Z) : Z :=
  Z.lxor ALL_ONES (Z.shiftr ALL_ONES prefixlen).

(** [n.bit_length()] for [0 <= n] *)
Definition bit_length (n : Z) : Z :=
  if n =? 0 then 0 else Z.log2 n + 1.

(** [_count_righthand_zero_bits] *)
Definition count_righthand_zero_bits (number bits : Z) : Z :=
  if number =? 0 then bits
  else Z.min bits (bit_length (Z.land (Z.lnot number) (number - 1))).

(** [_prefix_from_ip_int]; [None] is its [ValueError]. *)
Definition prefix_from_ip_int (ip_int : Z) : option Z :=
  let trailing_zeroes := count_righthand_zero_bits ip_int IPV4LENGTH in
  let prefixlen := IPV4LENGTH - trailing_zeroes in
  let leading_ones := Z.shiftr ip_int trailing_zeroes in
  let all_ones := Z.shiftl 1 prefixlen - 1 in
  if negb (leading_ones =? all_ones) then None else Some prefixlen.

(** [_prefix_from_prefix_string] *)
Definition prefix_from_prefix_string (prefixlen_str : string) : option Z :=
  if negb (Str.isascii_isdigit prefixlen_str) then None
  else
    let prefixlen := Str.int prefixlen_str in
    if negb ((0 <=? prefixlen) && (prefixlen <=? IPV4LENGTH)) then None
    else Some prefixlen.

(** [_prefix_from_ip_string]: a dotted netmask, else a dotted hostmask. *)
Definition prefix_from_ip_string (ip_str : string) : option Z :=
  match ip_int_from_string ip_str with
  | None => None
  | Some ip_int =>
      match prefix_from_ip_int ip_int with
      | Some prefixlen => Some prefixlen
      | None => prefix_from_ip_int (Z.lxor ip_int ALL_ONES)
      end
  end.

(** [_make_netmask] on the text after the slash; the prefix length is
    returned, the netmask is [ip_int_from_prefix] of it. *)
Definition make_netmask (arg : string) : option Z :=
  match prefix_from_prefix_string arg with
  | Some prefixlen => Some prefixlen
  | None => prefix_from_ip_string arg
  end.

Record net : Type := Net { network_address : Z; prefixlen : Z }.

Definition netmask (n : net) : Z := ip_int_from_prefix (prefixlen n).
Definition hostmask (n : net) : Z := Z.lxor (netmask n) ALL_ONES.
Definition broadcast_address (n : net) : Z :=
  Z.lor (network_address n) (hostmask n).

(** [_split_addr_prefix] on a string: the address text and, when there
    is a slash, the mask text. *)
Definition split_addr_prefix (address : string) : option (string * option string) :=
  match Str.split_on "/" address with
  | [addr] => Some (addr, None)
  | [addr; mask] => Some (addr, Some mask)
  | _ => None
  end.

(** [IPv4Network(address, strict)] *)
Definition network_of_string (address : string) (strict : bool) : outcome net :=
  match split_addr_prefix address with
  | None => NotThisVersion
  | Some (addr, mask) =>
      match address_of_string addr with
      | None => NotThisVersion
      | Some packed =>
          match from_option make_netmask (Some IPV4LENGTH) mask with
          | None => NotThisVersion
          | Some prefixlen =>
              let netmask := ip_int_from_prefix prefixlen in
              if negb (Z.land packed netmask =? packed) then
                if strict then HostBitsSet
                else Built (Net (Z.land packed netmask) prefixlen)
              else Built (Net packed prefixlen)
          end
      end
  end.

(** [range(a, b)] *)
Definition range (a b : Z) : list Z := seqZ a (b - a).

(** [__iter__]: every address of the network. *)
Definition iter (n : net) : list Z :=
  range (network_address n) (broadcast_address n + 1).

(** [hosts()]: the addresses strictly between the network and the
    broadcast address; [IPv4Network.__init__] replaces it by [__iter__]
    for a /31 and by the one address for a /32. *)
Definition hosts (n : net) : list Z :=
  if prefixlen n =? IPV4LENGTH - 1 then iter n
  else if prefixlen n =? IPV4LENGTH then [network_address n]
  else range (network_address n + 1) (broadcast_address n).

End IPv4.


(** ** Python's [ipaddress], IPv6 half

    [ip_address] and [ip_network] fall back to IPv6 when the text is not
    IPv4.  The IPv6 classes are kept abstract: their objects, their
    constructors from text, the host enumeration of a network and the
    printing of an address. *)
Class IPv6 : Type := {
  addr6 : Type;
  net6 : Type;
  addr6_eq_dec :: EqDecision addr6;
  addr6_countable :: Countable addr6;
  (** [IPv6Address(text)]; [None] is its [AddressValueError] *)
  address6_of_string : string -> option addr6;
  (** [IPv6Network(text, strict)] *)
  network6_of_string : string -> bool -> outcome net6;
  (** [IPv6Network.hosts()] *)
  hosts6 : net6 -> list addr6;
  (** [str] of an [IPv6Address] *)
  string_of_addr6 : addr6 -> string;
}.

(** A library without any IPv6 object: every text is rejected. *)
Definition no_ipv6 : IPv6 := {|
  addr6 := Empty_set;
  net6 := Empty_set;
  address6_of_string := fun _ => None;
  network6_of_string := fun _ _ => NotThisVersion;
  hosts6 := fun n => match n with end;
  string_of_addr6 := fun a => match a with end;
|}.

Section Ipaddress.
Context `{V6 : IPv6}.

(** An address object: two addresses are equal when they have the same
    version and the same integer. *)
Inductive IPAddress : Type :=
  | IPv4Address (ip : Z)
  | IPv6Address (a : addr6).

Inductive IPNetwork : Type :=
  | IPv4Network (n : IPv4.net)
  | IPv6Network (n : net6).

#[export] Instance address_eq_dec : EqDecision IPAddress.
Proof. solve_decision. Defined.

Definition address_to_sum (a : IPAddress) : Z + addr6 :=
  match a with
  | IPv4Address ip => inl ip
  | IPv6Address x => inr x
  end.

Definition address_of_sum (s : Z + addr6) : IPAddress :=
  match s with
  | inl ip => IPv4Address ip
  | inr x => IPv6Address x
  end.

#[export] Instance address_countable : Countable IPAddress.
Proof.
  apply (inj_countable' address_to_sum address_of_sum).
  intros [ip|x]; reflexivity.
Defined.

(** [ipaddress.ip_address(text)] *)
Definition ip_address (text : string) : result IPAddress :=
  match IPv4.address_of_string text with
  | Some ip => Ok (IPv4Address ip)
  | None =>
      match address6_of_string text with
      | Some a => Ok (IPv6Address a)
      | None => Err (ValueError text)
      end
  end.

(** [ipaddress.ip_network(text, strict)] *)
Definition ip_network (text : string) (strict : bool) : result IPNetwork :=
  match IPv4.network_of_string text strict with
  | Built n => Ok (IPv4Network n)
  | HostBitsSet => Err (ValueError text)
  | NotThisVersion =>
      match network6_of_string text strict with
      | Built n => Ok (IPv6Network n)
      | HostBitsSet => Err (ValueError text)
      | NotThisVersion => Err (ValueError text)
      end
  end.

(** [address.hosts()] *)
Definition hosts (address : IPNetwork) : list IPAddress :=
  match address with
  | IPv4Network n => IPv4Address <$> IPv4.hosts n
  | IPv6Network n => IPv6Address <$> hosts6 n
  end.

(** [str(ip)] *)
Definition str_address (ip : IPAddress) : string :=
  match ip with
  | IPv4Address n => IPv4.string_from_ip_int n
  | IPv6Address a => string_of_addr6 a
  end.

(** ** The pure functions of [main.py] *)

(** [find_interface]: the last word of the first line that starts with
    ["interface: "]. *)
Fixpoint find_interface (wg_show_output : list string) : result string :=
  match wg_show_output with
  | [] => Err (Exception "Cannot find interface name.")
  | line :: rest =>
      if Str.startswith "interface: " line
      then Str.last_item (Str.split line)
      else find_interface rest
  end.

(** [find_server_public_key] *)
Fixpoint find_server_public_key (wg_show_output : list string) : result string :=
  match wg_show_output with
  | [] => Err (Exception "Cannot find server public key")
  | line :: rest =>
      if Str.startswith "public key: " line
      then Str.last_item (Str.split line)
      else find_server_public_key rest
  end.

(** [find_using_ips] is a generator: the list holds, in order, what each
    [next] on it gives, and a consumer stops at the first exception. *)
Fixpoint find_using_ips (wg_output : list string) : list (result string) :=
  match wg_output with
  | [] => []
  | line :: rest =>
      if Str.startswith "allowed ips" line && negb (Str.contains "(none)" line)
      then Str.last_item (Str.split line) :: find_using_ips rest
      else find_using_ips rest
  end.

(** [find_unused_ip]: the first host of the network, in the order
    [hosts()] yields them, that is not in [used_ips]. *)
Definition find_unused_ip (used_ips : gset IPAddress) (address : IPNetwork)
  : result IPAddress :=
  match list_find (fun new_ip => new_ip ∉ used_ips) (hosts address) with
  | Some (_, new_ip) => Ok new_ip
  | None => Err (Exception "All valid IPs are used.")
  end.

(** The set comprehension of [make_new_ip],
    [{ip_address(ip.split("/")[0]) for ip in find_using_ips(wg_output)}],
    run over the generator's items. *)
Fixpoint used_ips_of (items : list (result string)) : result (gset IPAddress) :=
  match items with
  | [] => Ok ∅
  | item :: rest =>
      rbind item (fun ip =>
      rbind (Str.first_item (Str.split_on "/" ip)) (fun host =>
      rbind (ip_address host) (fun a =>
      rbind (used_ips_of rest) (fun used => Ok ({[a]} ∪ used)))))
  end.

(** The loop of [find_address] over the lines of the configuration file. *)
Fixpoint find_address_lines (lines : list string) : result (IPNetwork * IPAddress) :=
  match lines with
  | [] => Err (Exception "Address not found!")
  | line :: rest =>
      if Str.startswith "Address" line then
        rbind (Str.last_item (Str.split line)) (fun ip =>
        rbind (ip_network ip false) (fun net =>
        rbind (Str.first_item (Str.split_on "/" ip)) (fun host =>
        rbind (ip_address host) (fun a => Ok (net, a)))))
      else find_address_lines rest
  end.

End Ipaddress.

(** ** The outside world *)

(** What the script does to its environment, in the order it does it:
    the calls it makes, whether or not they succeed. *)
Inductive event : Type :=
  | Spawn (argv : list string) (stdin : string)
  | ShellCmd (cmd : string)
  | Prompt (msg : string)
  | IsFile (path : string)
  | OpenRead (path : string)
  | Mkdir (path : string)
  | Chdir (path : string)
  | FileWrite (path : string) (text : string).

(** What the script observes of its environment in one run: the exit status
    and standard output of each process it starts; the line typed at the
    prompt; the text of a regular file that decodes as UTF-8
    ([file_text]); whether a path without such a text is a regular file
    all the same, one whose bytes are not UTF-8 ([undecodable]); and, for
    a call that changes the file system ([os.mkdir], [os.chdir], opening
    a file for writing and writing it), the error number it fails with,
    if it fails ([fs_errno]).  Every command of a run has its own argument
    vector, so one answer per argument vector describes a run.  A program
    that cannot be started (one that is not installed, or an argument with
    a null character), an end of input at the prompt and a configuration
    file that cannot be opened although it exists are left out. *)
Record world : Type := World {
  run_process : list string -> string -> Z * string;
  run_shell : string -> Z;
  read_line : string -> string;
  file_text : string -> option string;
  undecodable : string -> bool;
  fs_errno : event -> option Z;
}.

(** A computation reads the world, appends to the trace of events and
    returns or raises. *)
Definition M (A : Type) : Type := world -> list event -> result A * list event.

Definition ret {A} (a : A) : M A := fun _ tr => (Ok a, tr).

Definition bind {A B} (m : M A) (k : A -> M B) : M B :=
  fun w tr =>
    match m w tr with
    | (Ok a, tr') => k a w tr'
    | (Err e, tr') => (Err e, tr')
    end.

Definition raise {A} (e : exn) : M A := fun _ tr => (Err e, tr).

Definition lift {A} (r : result A) : M A := fun _ tr => (r, tr).

Definition log (ev : event) : M unit := fun _ tr => (Ok tt, (tr ++ [ev])%list).

Definition ask {A} (f : world -> A) : M A := fun w tr => (Ok (f w), tr).

(** The truth value of a list: it has an element. *)
Definition nonempty {A} (xs : list A) : bool :=
  match xs with
  | [] => false
  | _ :: _ => true
  end.

(** [assert cond, msg] *)
Definition py_assert (cond : bool) (msg : string) : M unit :=
  if cond then ret tt else raise (AssertionError msg).

#[export] Instance M_ret : MRet M := @ret.
#[export] Instance M_bind : MBind M := fun A B k m => bind m k.

(** [subprocess.check_output(argv, stdin=..., text=True)] *)
Definition check_output (argv : list string) (stdin : string) : M string :=
  log (Spawn argv stdin);;
  '(status, out) ← ask (fun w => run_process w argv stdin);
  if status =? 0 then ret out else raise (CalledProcessError status argv).

(** [subprocess.call(argv, ...)]: the exit status. *)
Definition call (argv : list string) : M Z :=
  log (Spawn argv EmptyString);;
  ask (fun w => fst (run_process w argv EmptyString)).

(** [subprocess.call(cmd, shell=True)] *)
Definition call_shell (cmd : string) : M Z :=
  log (ShellCmd cmd);;
  ask (fun w => run_shell w cmd).

(** [input(msg)] *)
Definition input (msg : string) : M string :=
  log (Prompt msg);;
  ask (fun w => read_line w msg).

(** A call that changes the file system.  A path that holds a null
    character is rejected before the operating system is asked; otherwise
    the call is made, and raises when the operating system reports an
    error. *)
Definition fs_call (ev : event) (path : string) : M unit :=
  if Str.contains (String "000" EmptyString) path
  then raise (ValueError "embedded null byte")
  else
    log ev;;
    errno ← ask (fun w => fs_errno w ev);
    match errno with
    | Some n => raise (OSError n path)
    | None => ret tt
    end.

(** [os.mkdir(path)] *)
Definition mkdir (path : string) : M unit := fs_call (Mkdir path) path.

(** [os.chdir(path)] *)
Definition chdir (path : string) : M unit := fs_call (Chdir path) path.

(** [with open(path, "w", encoding="utf-8") as file: file.write(text)] *)
Definition write_text (path text : string) : M unit :=
  fs_call (FileWrite path text) path.

Section Pipeline.
Context `{V6 : IPv6}.

(** [get_wg_show_output] *)
Definition get_wg_show_output : M (list string) :=
  raw_output ← check_output ["wg"; "show"] EmptyString;
  let raw_list := Str.split_on Str.newline raw_output in
  let lines :=
    Str.strip <$> List.filter (fun line => negb (Str.is_empty line)) raw_list in
  py_assert (nonempty lines) "Empty output from `wg show` command.";;
  ret lines.

(** [get_user] *)
Definition get_user : M string :=
  typed ← input "Enter Username: ";
  let username := Str.strip typed in
  py_assert (negb (Str.is_empty username)) "Empty username is not allowed.";;
  ret username.

(** [gen_private_key] *)
Definition gen_private_key : M string :=
  out ← check_output ["wg"; "genkey"] EmptyString;
  ret (Str.strip out).

(** [gen_public_key]: the standard output of [echo <private key>] is the
    standard input of [wg pubkey]. *)
Definition gen_public_key (private_key : string) : M string :=
  log (Spawn ["echo"; private_key] EmptyString);;
  ps_stdout ← ask (fun w => snd (run_process w ["echo"; private_key] EmptyString));
  out ← check_output ["wg"; "pubkey"] ps_stdout;
  ret (Str.strip out).

Definition config_path (interface_name : string) : string :=
  "/etc/wireguard/" +:+ interface_name +:+ ".conf".

(** The failed [assert assumed_file.is_file()], with the [repr] of the path. *)
Definition config_missing (interface_name : string) : exn :=
  AssertionError
    ("cannot find config file: PosixPath('" +:+ config_path interface_name +:+ "')").

(** [find_address] *)
Definition find_address (interface_name : string) : M (IPNetwork * IPAddress) :=
  let assumed_file := config_path interface_name in
  log (IsFile assumed_file);;
  text ← ask (fun w => file_text w assumed_file);
  match text with
  | Some config =>
      log (OpenRead assumed_file);;
      lift (find_address_lines (Str.readlines config))
  | None =>
      garbled ← ask (fun w => undecodable w assumed_file);
      if (garbled : bool) then
        log (OpenRead assumed_file);;
        raise (UnicodeDecodeError assumed_file)
      else raise (config_missing interface_name)
  end.

(** [make_new_ip] *)
Definition make_new_ip (interface_name : string) (wg_output : list string)
  : M string :=
  '(address, address_as_ip) ← find_address interface_name;
  used_ips ← lift (used_ips_of (find_using_ips wg_output));
  let used_ips := {[address_as_ip]} ∪ used_ips in
  new_ip ← lift (find_unused_ip used_ips address);
  ret (str_address new_ip +:+ "/32").

Definition DNS : string := "1.1.1.1".
Definition ADDRESS : string := "<URI>:<PORT>".

Definition nl : string := String Str.newline EmptyString.

(** [make_new_config_file]: the template is filled in first and
    dedented after that.  Every line of the literal starts with twelve
    spaces; the fifth holds thirteen spaces and nothing else. *)
Definition make_new_config_file (address private_key sever_public_key : string)
  : string :=
  Textwrap.dedent
    ("            [Interface]" +:+ nl +:+
     "            Address = " +:+ address +:+ nl +:+
     "            PrivateKey = " +:+ private_key +:+ nl +:+
     "            DNS = " +:+ DNS +:+ nl +:+
     "             " +:+ nl +:+
     "            [Peer]" +:+ nl +:+
     "            PublicKey = " +:+ sever_public_key +:+ nl +:+
     "            AllowedIPs = 0.0.0.0/0" +:+ nl +:+
     "            Endpoint = " +:+ ADDRESS).

(** [make_qr_code] *)
Definition make_qr_code (username : string) : M unit :=
  call_shell ("qrencode -o " +:+ username +:+ ".png < " +:+ username +:+ ".conf");;
  ret tt.

(** [make_configs] *)
Definition make_configs (username ip private_key server_public_key : string)
  : M unit :=
  let config := make_new_config_file ip private_key server_public_key in
  mkdir username;;
  chdir username;;
  write_text (username +:+ ".conf") config;;
  make_qr_code username.

Definition wg_set_argv (public_key allowed_ips interface_name : string)
  : list string :=
  ["wg"; "set"; interface_name; "peer"; public_key; "allowed-ips"; allowed_ips].

(** [insert_new_peer] *)
Definition insert_new_peer (public_key allowed_ips interface_name : string)
  : M unit :=
  process ← call (wg_set_argv public_key allowed_ips interface_name);
  py_assert (process =? 0) "inserting new peer failed.".

(** [save_new_config] *)
Definition save_new_config (interface_name : string) : M unit :=
  process ← call ["wg-quick"; "save"; interface_name];
  py_assert (process =? 0) "saving new config failed.".

(** [main] *)
Definition main : M unit :=
  wg_show_output ← get_wg_show_output;
  interface_name ← lift (find_interface wg_show_output);
  server_public_key ← lift (find_server_public_key wg_show_output);
  username ← get_user;
  private_key ← gen_private_key;
  public_key ← gen_public_key private_key;
  ip ← make_new_ip interface_name wg_show_output;
  make_configs username ip private_key server_public_key;;
  insert_new_peer public_key ip interface_name;;
  save_new_config interface_name.

(** One run of the script, from an empty trace. *)
Definition run_main (w : world) : result unit * list event := main w [].

End Pipeline.

(** ** Vocabulary of the specification *)

(** The specification's hosts(S): the addresses of the subnet other than
    its network address and its broadcast address, in ascending order.
    This follows the specification's words; [IPv4.hosts] is what the
    library enumerates. *)
Definition spec_hosts (S : IPv4.net) : list Z :=
  IPv4.range (IPv4.network_address S + 1) (IPv4.broadcast_address S).

(** The peer-registration command ([wg set ...]) and the persist command
    ([wg-quick save ...]) among the events of a run. *)
Definition is_register (ev : event) : bool :=
  match ev with
  | Spawn (prog :: verb :: _) _ => String.eqb prog "wg" && String.eqb verb "set"
  | _ => false
  end.

Definition is_persist (ev : event) : bool :=
  match ev with
  | Spawn (prog :: verb :: _) _ =>
      String.eqb prog "wg-quick" && String.eqb verb "save"
  | _ => false
  end.

(** Writing a client artifact: the configuration directory, the
    configuration file, the QR code. *)
Definition is_artifact (ev : event) : bool :=
  match ev with
  | Mkdir _ | Chdir _ | FileWrite _ _ | ShellCmd _ => true
  | _ => false
  end.

(** An event that changes nothing: neither an artifact nor the live or
    persisted interface. *)
Definition harmless (ev : event) : Prop :=
  is_artifact ev = false /\ is_register ev = false /\ is_persist ev = false.

(** A line of the status output that carries a peer's allowed-address
    entry: it starts with ["allowed ips"], does not hold the placeholder,
    and the entry is its last word. *)
Definition peer_entry (line entry : string) : Prop :=
  Str.startswith "allowed ips" line = true ∧
  Str.contains "(none)" line = false ∧
  last (Str.split line) = Some entry.

Definition no_directive (line : string) : Prop :=
  Str.startswith "Address" line = false.

Section EntryAddress.
Context `{V6 : IPv6}.

(** The address an entry stands for: the text before its first slash,
    read as an IP address. *)
Definition entry_address (entry : string) (a : IPAddress) : Prop :=
  ∃ host, Str.first_item (Str.split_on "/" entry) = Ok host ∧
          ip_address host = Ok a.

(** Two generator items that differ at most in what follows the slash. *)
Definition same_host (item1 item2 : result string) : Prop :=
  ∃ host p q, Str.contains "/" host = false ∧
    item1 = Ok (host +:+ "/" +:+ p) ∧ item2 = Ok (host +:+ "/" +:+ q).

End EntryAddress.

(** An event that leaves the live interface and its persisted
    configuration alone. *)
Definition quiet (ev : event) : Prop :=
  is_register ev = false ∧ is_persist ev = false.

(** [emits P m]: all that [m] does to the environment satisfies [P]. *)
Definition emits {A} (P : event → Prop) (m : M A) : Prop :=
  ∀ w tr r tr', m w tr = (r, tr') →
    ∃ evs, tr' = (tr ++ evs)%list ∧ Forall P evs.

(** The ways a run can go, by how far it gets: it stops before any
    artifact is written; it stops while writing the artifacts; the
    registration command fails; the registration command succeeds and the
    persist command is run. *)
Inductive run_shape (w : world) : result unit → list event → Prop :=
  | run_stopped_early e tr :
      Forall harmless tr → run_shape w (Err e) tr
  | run_stopped_in_artifacts errno path tr :
      Forall quiet tr → run_shape w (Err (OSError errno path)) tr
  | run_registration_failed pre public_key ip name :
      Forall quiet pre →
      (run_process w (wg_set_argv public_key ip name) EmptyString).1 ≠ 0 →
      run_shape w (Err RegistrationFailed)
        (pre ++ [Spawn (wg_set_argv public_key ip name) EmptyString])
  | run_registered pre public_key ip name :
      Forall quiet pre →
      (run_process w (wg_set_argv public_key ip name) EmptyString).1 = 0 →
      run_shape w
        (if (run_process w ["wg-quick"; "save"; name] EmptyString).1 =? 0
         then Ok tt else Err PersistFailed)
        (pre ++ [Spawn (wg_set_argv public_key ip name) EmptyString;
                 Spawn ["wg-quick"; "save"; name] EmptyString]).

(** ** Example worlds

    A world in which [wg show] prints [status], the configuration file of
    [wg0] holds [config], the operator types [alice], key generation
    works, [wg set] exits with [set_status] and everything else with 0. *)
Definition example_world (status config : string) (set_status : Z) : world := {|
  run_process := fun argv stdin =>
    match argv with
    | [prog; verb] =>
        if String.eqb verb "show" then (0, status)
        else if String.eqb verb "genkey" then (0, "cGVlci1wcml2YXRlLWtleQ=" +:+ nl)
        else if String.eqb verb "pubkey" then (0, "cGVlci1wdWJsaWMta2V5=" +:+ nl)
        else (0, verb +:+ nl)
    | prog :: verb :: _ =>
        if String.eqb verb "set" then (set_status, EmptyString)
        else (0, EmptyString)
    | _ => (0, EmptyString)
    end;
  run_shell := fun _ => 0;
  read_line := fun _ => "alice";
  file_text := fun path =>
    if String.eqb path "/etc/wireguard/wg0.conf" then Some config else None;
  undecodable := fun _ => false;
  fs_errno := fun _ => None;
|}.

Definition status_header : string :=
  "interface: wg0" +:+ nl +:+
  "  public key: c2VydmVyLXB1YmxpYy1rZXk=" +:+ nl +:+
  "  private key: (hidden)" +:+ nl +:+
  "  listening port: 51820" +:+ nl.

Definition status_peer (key allowed : string) : string :=
  nl +:+ "peer: " +:+ key +:+ nl +:+ "  allowed ips: " +:+ allowed +:+ nl.

(** Scenario A: 10.10.50.1/24 with peers 10.10.50.2/32 and 10.10.50.3/32. *)
Definition status_A : string :=
  status_header +:+ status_peer "cGVlci1vbmU=" "10.10.50.2/32"
                +:+ status_peer "cGVlci10d28=" "10.10.50.3/32".

Definition config_A : string :=
  "[Interface]" +:+ nl +:+ "Address = 10.10.50.1/24" +:+ nl +:+
  "ListenPort = 51820" +:+ nl.

(** Scenario D: 10.10.50.1/30 with the one other host, 10.10.50.2, used. *)
Definition status_D : string :=
  status_header +:+ status_peer "cGVlci1vbmU=" "10.10.50.2/32".

Definition config_D : string :=
  "[Interface]" +:+ nl +:+ "Address = 10.10.50.1/30" +:+ nl +:+
  "ListenPort = 51820" +:+ nl.

(** An interface at 10.10.50.1/31 without peers. *)
Definition config_31 : string :=
  "[Interface]" +:+ nl +:+ "Address = 10.10.50.1/31" +:+ nl.

(** Scenario B: a status output without the interface line. *)
Definition status_B : string := status_peer "cGVlci1vbmU=" "10.10.50.2/32".

(** The lines [get_wg_show_output] makes of [status_A]. *)
Definition lines_A : list string :=
  ["interface: wg0"; "public key: c2VydmVyLXB1YmxpYy1rZXk=";
   "private key: (hidden)"; "listening port: 51820";
   "peer: cGVlci1vbmU="; "allowed ips: 10.10.50.2/32";
   "peer: cGVlci10d28="; "allowed ips: 10.10.50.3/32"].

(** A peer with two allowed addresses, as [wg show] prints them. *)
Definition status_multi : string :=
  status_header +:+ status_peer "cGVlci1vbmU=" "10.10.50.2/32, 10.10.50.3/32".

(** The lines [get_wg_show_output] makes of [status_multi]. *)
Definition lines_multi : list string :=
  ["interface: wg0"; "public key: c2VydmVyLXB1YmxpYy1rZXk=";
   "private key: (hidden)"; "listening port: 51820";
   "peer: cGVlci1vbmU="; "allowed ips: 10.10.50.2/32, 10.10.50.3/32"].

(** The world of scenario A with an operator who types [foo/]: the
    directory is created and entered, and no file [foo/.conf] can be
    created in it. *)
Definition world_slash : world := {|
  run_process := run_process (example_world status_A config_A 0);
  run_shell := fun _ => 0;
  read_line := fun _ => "foo/";
  file_text := file_text (example_world status_A config_A 0);
  undecodable := fun _ => false;
  fs_errno := fun ev =>
    match ev with
    | FileWrite _ _ => Some 2
    | _ => None
    end;
|}.

(** The world of scenario A with a configuration file that is not UTF-8. *)
Definition world_garbled : world := {|
  run_process := run_process (example_world status_A config_A 0);
  run_shell := fun _ => 0;
  read_line := fun _ => "alice";
  file_text := fun _ => None;
  undecodable := fun path => String.eqb path "/etc/wireguard/wg0.conf";
  fs_errno := fun _ => None;
|}.

(** ** Vocabulary for the text operations *)

(** A text without whitespace, and a word: such a text with at least one
    character. *)
Fixpoint spaceless (s : string) : bool :=
  match s with
  | EmptyString => true
  | String c s' => negb (Str.isspace c) && spaceless s'
  end.

Definition is_word (s : string) : Prop := s ≠ EmptyString ∧ spaceless s = true.

Definition first_char (s : string) : option ascii :=
  match s with
  | EmptyString => None
  | String c _ => Some c
  end.

Fixpoint last_char (s : string) : option ascii :=
  match s with
  | EmptyString => None
  | String c s' =>
      match last_char s' with
      | Some d => Some d
      | None => Some c
      end
  end.

(** A text that neither starts nor ends with whitespace. *)
Definition trimmed (s : string) : Prop :=
  (∀ c, first_char s = Some c → Str.isspace c = false) ∧
  (∀ c, last_char s = Some c → Str.isspace c = false).

(** ** Vocabulary for IPv4 networks *)

(** A network object as [IPv4Network] builds it: a prefix length of at
    most 32, the last address [2^(32-p) - 1] above the network address
    (so no host bit is set in the network address), and all its addresses
    32-bit. *)
Definition wf_net (n : IPv4.net) : Prop :=
  0 ≤ IPv4.prefixlen n ≤ 32 ∧
  0 ≤ IPv4.network_address n ∧
  IPv4.broadcast_address n
  = IPv4.network_address n + 2 ^ (32 - IPv4.prefixlen n) - 1 ∧
  IPv4.broadcast_address n < 2 ^ 32.

(** An address of the network, its first and last address included. *)
Definition in_net (a : Z) (n : IPv4.net) : Prop :=
  IPv4.network_address n ≤ a ≤ IPv4.broadcast_address n.

(** A text of whitespace only. *)
Fixpoint all_space (s : string) : bool :=
  match s with
  | EmptyString => true
  | String c s' => Str.isspace c && all_space s'
  end.

(** ** The preflight check

    What [check_requirements] observes: where [shutil.which] finds a
    program, if anywhere, and the user id of the process. *)
Record host : Type := Host {
  which : string -> option string;
  getuid : Z;
}.

(** [repr] of a program name (a text without quotes or backslashes). *)
Definition repr (s : string) : string := "'" +:+ s +:+ "'".

(** The loop of [check_requirements] over the set [must_installed], in
    the order the set is iterated. *)
Fixpoint check_installed (h : host) (programs : list string) : result unit :=
  match programs with
  | [] => Ok tt
  | program :: rest =>
      match which h program with
      | Some _ => check_installed h rest
      | None => Err (AssertionError (repr program +:+ " must be installed."))
      end
  end.

(** [check_requirements]; the iteration order of the set
    [{"wg", "qrencode"}] is not fixed by the language and is an
    argument. *)
Definition check_requirements (must_installed : list string) (h : host)
  : result unit :=
  rbind (check_installed h must_installed) (fun _ =>
  if getuid h =? 0 then Ok tt
  else Err (AssertionError
              "You must have super user permissions to run this program.")).

(** A host with both programs installed, run by root. *)
Definition example_host : host := {|
  which := fun program => Some ("/usr/bin/" +:+ program);
  getuid := 0;
|}.

(** ** Vocabulary for the ways a run fails *)

(** An exception other than those of the registration and the persist
    step. *)
Definition early_error (e : exn) : Prop :=
  e ≠ RegistrationFailed ∧ e ≠ PersistFailed.

Definition EmptyUsername : exn := AssertionError "Empty username is not allowed.".

(** The exceptions a call that changes the file system can raise: an
    [OSError], or the [ValueError] of a path it rejects. *)
Definition is_os_error (e : exn) : Prop := ∃ errno path, e = OSError errno path.

Definition is_value_error (e : exn) : Prop := ∃ text, e = ValueError text.

(** ** Vocabulary for the client configuration *)

(** A text without a line feed. *)
Definition one_line (s : string) : Prop :=
  Str.contains (String Str.newline EmptyString) s = false.

(** The template of [make_new_config_file] without its indentation. *)
Definition client_config (address private_key sever_public_key : string) : string :=
  "[Interface]" +:+ nl +:+
  "Address = " +:+ address +:+ nl +:+
  "PrivateKey = " +:+ private_key +:+ nl +:+
  "DNS = " +:+ DNS +:+ nl +:+
  nl +:+
  "[Peer]" +:+ nl +:+
  "PublicKey = " +:+ sever_public_key +:+ nl +:+
  "AllowedIPs = 0.0.0.0/0" +:+ nl +:+
  "Endpoint = " +:+ ADDRESS.

(** ** The allocator *)

Section Allocator.
Context `{V6 : IPv6}.

Lemma find_unused_ip_Ok used address new_ip :
  find_unused_ip used address = Ok new_ip ↔
  ∃ i : nat, hosts address !! i = Some new_ip ∧ (new_ip ∉ used) ∧
    ∀ (j : nat) y, hosts address !! j = Some y → (j < i)%nat → y ∈ used.
Proof.
  unfold find_unused_ip.
  destruct (list_find _ _) as [[i x]|] eqn:Hfind.
  - apply list_find_Some in Hfind as (Hi & Hx & Hlt). split.
    + intros [= <-]. exists i. split_and!; [done..|].
      intros j y Hj Hji. destruct (decide (y ∈ used)) as [|Hn]; [done|].
      by destruct (Hlt j y Hj Hji).
    + intros (i' & Hi' & Hx' & Hlt'). f_equal.
      destruct (Nat.lt_trichotomy i i') as [Hc|[Hc|Hc]]; [|subst i'|].
      * by destruct Hx; eapply Hlt'.
      * congruence.
      * by destruct (Hlt i' new_ip Hi' Hc).
  - split; [done|]. intros (i & Hi & Hx & _).
    apply list_find_None in Hfind. rewrite Forall_forall in Hfind.
    destruct (Hfind new_ip); [|done]. by eapply list_elem_of_lookup_2.
Qed.

Lemma find_unused_ip_Err used address e :
  find_unused_ip used address = Err e ↔
  e = PoolExhausted ∧ ∀ a, a ∈ hosts address → a ∈ used.
Proof.
  unfold find_unused_ip.
  destruct (list_find _ _) as [[i x]|] eqn:Hfind.
  - apply list_find_Some in Hfind as (Hi & Hx & _). split; [done|].
    intros [_ Hall]. destruct Hx. apply Hall. by eapply list_elem_of_lookup_2.
  - apply list_find_None in Hfind. rewrite Forall_forall in Hfind. split.
    + intros [= <-]. split; [done|]. intros a Ha.
      destruct (decide (a ∈ used)) as [|Hn]; [done|]. by destruct (Hfind a Ha).
    + by intros [-> _].
Qed.

(** A used set smaller than a duplicate-free candidate list leaves a
    candidate free. *)
Lemma free_candidate (used : gset IPAddress) (l : list IPAddress) :
  NoDup l → (size used < length l)%nat → ∃ a, a ∈ l ∧ a ∉ used.
Proof.
  intros Hnd Hsize.
  destruct (decide (Forall (fun a => a ∈ used) l)) as [Hall|Hex].
  - assert (list_to_set l ⊆ used) as Hsub.
    { intros a Ha%elem_of_list_to_set. rewrite Forall_forall in Hall. auto. }
    apply subseteq_size in Hsub. rewrite size_list_to_set in Hsub by done. lia.
  - apply not_Forall_Exists in Hex; [|apply _].
    apply Exists_exists in Hex as (a & Ha & Hna). eauto.
Qed.

Lemma NoDup_hosts4 (S : IPv4.net) : NoDup (IPv4.hosts S).
Proof.
  unfold IPv4.hosts, IPv4.iter, IPv4.range.
  repeat case_match; try apply NoDup_seqZ. apply NoDup_singleton.
Qed.

Lemma NoDup_IPv4Address (l : list Z) : NoDup l → NoDup (IPv4Address <$> l).
Proof. apply NoDup_fmap_2. by intros x y [= ->]. Qed.

(** The hostmask of a /31 is 1 and that of a /32 is 0. *)
Lemma hostmask_31 S : IPv4.prefixlen S = 31 → IPv4.hostmask S = 1.
Proof. unfold IPv4.hostmask, IPv4.netmask. by intros ->. Qed.

Lemma hostmask_32 S : IPv4.prefixlen S = 32 → IPv4.hostmask S = 0.
Proof. unfold IPv4.hostmask, IPv4.netmask. by intros ->. Qed.

Lemma lor_le_add (a b : Z) : 0 ≤ b → Z.lor a b ≤ a + b.
Proof.
  intros Hb. pose proof (Z.add_lor_land a b) as Hadd.
  assert (0 ≤ Z.land a b) by (apply Z.land_nonneg; auto). lia.
Qed.

(** Outside /31 and /32 the library enumerates the specification's hosts;
    a /31 or /32 has none of those. *)
Lemma hosts4_spec_hosts S :
  IPv4.prefixlen S ≠ 31 → IPv4.prefixlen S ≠ 32 → IPv4.hosts S = spec_hosts S.
Proof.
  intros H31 H32. unfold IPv4.hosts, spec_hosts, IPv4.IPV4LENGTH.
  destruct (Z.eqb_spec (IPv4.prefixlen S) (32 - 1)); [lia|].
  by destruct (Z.eqb_spec (IPv4.prefixlen S) 32).
Qed.

Lemma spec_hosts_31_32 S :
  IPv4.prefixlen S = 31 ∨ IPv4.prefixlen S = 32 → spec_hosts S = [].
Proof.
  intros Hp. unfold spec_hosts, IPv4.range, IPv4.broadcast_address.
  apply seqZ_nil.
  destruct Hp as [Hp|Hp].
  - rewrite (hostmask_31 _ Hp).
    pose proof (lor_le_add (IPv4.network_address S) 1). lia.
  - rewrite (hostmask_32 _ Hp), Z.lor_0_r. lia.
Qed.

End Allocator.

Section AllocatorClaims.
Context `{V6 : IPv6}.

(** The allocator on an IPv4 network, for any prefix length: when some
    enumerated host is free, the result is the first free one in
    enumeration order. *)
Lemma find_unused_ip_first_free (S : IPv4.net) (U : gset IPAddress) :
  (size U < length (IPv4.hosts S))%nat →
  ∃ (i : nat) n,
    find_unused_ip U (IPv4Network S) = Ok (IPv4Address n) ∧
    IPv4.hosts S !! i = Some n ∧ (IPv4Address n ∉ U) ∧
    ∀ (j : nat) m, IPv4.hosts S !! j = Some m → (j < i)%nat → IPv4Address m ∈ U.
Proof.
  intros Hsize.
  destruct (free_candidate U (IPv4Address <$> IPv4.hosts S)) as (a & Ha & Hfree).
  { apply NoDup_IPv4Address, NoDup_hosts4. }
  { by rewrite length_fmap. }
  destruct (find_unused_ip U (IPv4Network S)) as [new_ip|e] eqn:Hres.
  - apply find_unused_ip_Ok in Hres as (i & Hi & Hnew & Hlt). simpl in Hi, Hlt.
    apply list_lookup_fmap_Some in Hi as (n & -> & Hn).
    exists i, n. split_and!; [done..|].
    intros j m Hj Hji. apply (Hlt j); [|done].
    by rewrite list_lookup_fmap, Hj.
  - apply find_unused_ip_Err in Hres as [_ Hall]. by destruct Hfree; apply Hall.
Qed.

(** C1. For every subnet S and every used-address set U contained in
    hosts(S) with fewer elements than hosts(S), where hosts(S) is the
    range of addresses of S other than its network and broadcast address,
    [find_unused_ip] returns an address of hosts(S) that is not in U, and
    no smaller address of hosts(S) is free. *)
Theorem find_unused_ip_smallest_free (S : IPv4.net) (U : gset IPAddress) :
  (∀ a, a ∈ U → ∃ n, a = IPv4Address n ∧ n ∈ spec_hosts S) →
  (size U < length (spec_hosts S))%nat →
  ∃ n, find_unused_ip U (IPv4Network S) = Ok (IPv4Address n) ∧
       n ∈ spec_hosts S ∧ (IPv4Address n ∉ U) ∧
       ∀ m, m ∈ spec_hosts S → IPv4Address m ∉ U → n ≤ m.
Proof.
  intros _ Hsize.
  assert (IPv4.prefixlen S ≠ 31 ∧ IPv4.prefixlen S ≠ 32) as [H31 H32].
  { split; intros Hp; rewrite spec_hosts_31_32 in Hsize by auto;
      simpl in Hsize; lia. }
  rewrite <- (hosts4_spec_hosts S H31 H32) in *.
  destruct (find_unused_ip_first_free S U Hsize) as (i & n & Hres & Hi & Hn & Hlt).
  exists n. split_and!; [done| by eapply list_elem_of_lookup_2 |done|].
  intros m Hm Hfree. rewrite (hosts4_spec_hosts S H31 H32) in *.
  unfold spec_hosts, IPv4.range in *.
  apply lookup_seqZ in Hi as [-> Hi].
  apply elem_of_seqZ in Hm.
  destruct (Z_lt_le_dec m (IPv4.network_address S + 1 + Z.of_nat i)) as [Hlow|]; [|done].
  destruct Hfree.
  apply (Hlt (Z.to_nat (m - (IPv4.network_address S + 1)))); [|lia].
  apply lookup_seqZ. split; lia.
Qed.

(** C2 (as amended). For every subnet S of prefix length at most 30,
    when every address of hosts(S) is in U, in particular when
    U = hosts(S), [find_unused_ip] raises the exception of an exhausted
    pool and returns no address.  For a /31 or /32 subnet the allocator
    enumerates the network's own addresses instead: both addresses of a
    /31, the network address first, and the single address of a /32; it
    returns the first of them that is not in U, and raises the exception
    of an exhausted pool only when all of them are in U. *)
Theorem find_unused_ip_saturated (S : IPv4.net) (U : gset IPAddress) :
  (IPv4.prefixlen S ≤ 30 →
   (∀ n, n ∈ spec_hosts S → IPv4Address n ∈ U) →
   find_unused_ip U (IPv4Network S) = Err PoolExhausted) ∧
  (IPv4.prefixlen S = 31 → wf_net S →
   find_unused_ip U (IPv4Network S) =
     if decide (IPv4Address (IPv4.network_address S) ∈ U)
     then if decide (IPv4Address (IPv4.network_address S + 1) ∈ U)
          then Err PoolExhausted
          else Ok (IPv4Address (IPv4.network_address S + 1))
     else Ok (IPv4Address (IPv4.network_address S))) ∧
  (IPv4.prefixlen S = 32 →
   find_unused_ip U (IPv4Network S) =
     if decide (IPv4Address (IPv4.network_address S) ∈ U)
     then Err PoolExhausted
     else Ok (IPv4Address (IPv4.network_address S))).
Proof.
  split_and!.
  - intros Hp Hall. apply find_unused_ip_Err. split; [done|].
    intros a Ha. simpl in Ha. apply list_elem_of_fmap in Ha as (n & -> & Hn).
    apply Hall. rewrite <- hosts4_spec_hosts; [done|lia..].
  - intros Hp (_ & _ & Hlast & _). rewrite Hp in Hlast.
    unfold find_unused_ip, hosts, IPv4.hosts, IPv4.iter, IPv4.range.
    rewrite Hp, Hlast.
    replace (IPv4.network_address S + 2 ^ (32 - 31) - 1 + 1
             - IPv4.network_address S) with 2 by (simpl; lia).
    replace (seqZ (IPv4.network_address S) 2)
      with [IPv4.network_address S; IPv4.network_address S + 1]
      by (unfold seqZ; simpl; do 2 f_equal; lia).
    simpl. repeat case_decide; done.
  - intros Hp. unfold find_unused_ip, hosts, IPv4.hosts. rewrite Hp. simpl.
    repeat case_decide; done.
Qed.

End AllocatorClaims.

Section AllocatorExamples.
#[local] Existing Instance no_ipv6.

(** C1 at 10.10.50.0/24 with 10.10.50.1 and 10.10.50.2 used. *)
Lemma find_unused_ip_smallest_free_witness :
  ∃ n, find_unused_ip
         {[IPv4Address 168440321; IPv4Address 168440322]}
         (IPv4Network (IPv4.Net 168440320 24)) = Ok (IPv4Address n) ∧
       n ∈ spec_hosts (IPv4.Net 168440320 24) ∧
       (IPv4Address n ∉ ({[IPv4Address 168440321; IPv4Address 168440322]} : gset IPAddress)) ∧
       ∀ m, m ∈ spec_hosts (IPv4.Net 168440320 24) →
            IPv4Address m ∉ ({[IPv4Address 168440321; IPv4Address 168440322]} : gset IPAddress) →
            n ≤ m.
Proof.
  apply (find_unused_ip_smallest_free).
  - intros a Ha. apply elem_of_union in Ha as [Ha|Ha];
      apply elem_of_singleton in Ha as ->; eexists; (split; [reflexivity|]);
      apply elem_of_seqZ; vm_compute; split; congruence.
  - vm_compute. lia.
Defined.

(** C2 (as amended) at 10.10.50.0/30 with U = hosts(S), and at
    10.10.50.0/31 with both of its addresses in U. *)
Lemma find_unused_ip_saturated_witness :
  find_unused_ip
    (list_to_set (IPv4Address <$> spec_hosts (IPv4.Net 168440320 30)))
    (IPv4Network (IPv4.Net 168440320 30)) = Err PoolExhausted ∧
  find_unused_ip
    {[IPv4Address 168440320; IPv4Address 168440321]}
    (IPv4Network (IPv4.Net 168440320 31)) = Err PoolExhausted.
Proof.
  split.
  - apply (find_unused_ip_saturated (IPv4.Net 168440320 30)).
    + simpl. lia.
    + intros n Hn. apply elem_of_list_to_set, list_elem_of_fmap. eauto.
  - destruct (find_unused_ip_saturated (IPv4.Net 168440320 31)
                {[IPv4Address 168440320; IPv4Address 168440321]})
      as (_ & H31 & _).
    rewrite H31.
    + reflexivity.
    + reflexivity.
    + unfold wf_net. simpl. vm_compute. repeat split; congruence.
Defined.

(** C2 as stated fails on a /31: 10.10.50.0/31 has no address strictly
    between its network and broadcast address, so U = hosts(S) is empty,
    and the allocator returns the network address 10.10.50.0. *)
Lemma find_unused_ip_saturated_slash31 :
  ip_network "10.10.50.0/31" false
    = Ok (IPv4Network (IPv4.Net 168440320 31)) ∧
  spec_hosts (IPv4.Net 168440320 31) = [] ∧
  find_unused_ip
    (list_to_set (IPv4Address <$> spec_hosts (IPv4.Net 168440320 31)))
    (IPv4Network (IPv4.Net 168440320 31)) = Ok (IPv4Address 168440320) ∧
  find_unused_ip
    (list_to_set (IPv4Address <$> spec_hosts (IPv4.Net 168440320 31)))
    (IPv4Network (IPv4.Net 168440320 31)) ≠ Err PoolExhausted.
Proof. split_and!; [reflexivity..|]. vm_compute. discriminate. Qed.

End AllocatorExamples.

(** ** Facts about the text operations *)

Lemma prefix_empty (s : string) : String.prefix EmptyString s = true.
Proof. by destruct s. Qed.

Lemma prefix_cons a b s1 s2 :
  String.prefix (String a s1) (String b s2)
  = if Ascii.eqb a b then String.prefix s1 s2 else false.
Proof.
  change (String.prefix (String a s1) (String b s2))
    with (if ascii_dec a b then String.prefix s1 s2 else false).
  destruct (ascii_dec a b), (Ascii.eqb_spec a b); congruence.
Qed.

Lemma startswith_cons c p s :
  Str.startswith (String c p) s = true →
  ∃ s', s = String c s' ∧ Str.startswith p s' = true.
Proof.
  unfold Str.startswith. destruct s as [|b s']; [done|].
  rewrite prefix_cons. destruct (Ascii.eqb_spec c b) as [->|]; [|done]. eauto.
Qed.

Lemma contains_char sep c s :
  Str.contains (String sep EmptyString) (String c s)
  = Ascii.eqb sep c || Str.contains (String sep EmptyString) s.
Proof.
  cbn [Str.contains]. rewrite prefix_cons, prefix_empty.
  by destruct (Ascii.eqb sep c).
Qed.

Lemma contains_char_app c a b :
  Str.contains (String c EmptyString) (a +:+ b)
  = Str.contains (String c EmptyString) a || Str.contains (String c EmptyString) b.
Proof.
  induction a as [|x a IH]; [done|].
  change (String x a +:+ b) with (String x (a +:+ b)).
  rewrite !contains_char, IH. by rewrite orb_assoc.
Qed.

Lemma contains_cons sub c s :
  Str.contains sub s = true → Str.contains sub (String c s) = true.
Proof. intros H. cbn [Str.contains]. rewrite H. apply orb_true_r. Qed.

Lemma prefix_contains sub s :
  String.prefix sub s = true → Str.contains sub s = true.
Proof. intros H. destruct s; cbn [Str.contains]; by rewrite H. Qed.

Lemma emit_elem_of x w ws : x ∈ Str.emit w ws → x = w ∨ x ∈ ws.
Proof.
  unfold Str.emit. destruct (Str.is_empty w); [auto|].
  intros [->|?]%elem_of_cons; auto.
Qed.

(** The scan of [split] returns a prefix of the text and words that occur
    in the text. *)
Lemma split_scan_contained s w ws :
  Str.split_scan s = (w, ws) →
  String.prefix w s = true ∧ ∀ x, x ∈ ws → Str.contains x s = true.
Proof.
  revert w ws. induction s as [|c s IH]; intros w ws; cbn [Str.split_scan].
  - intros [= <- <-]. split; [done|]. by intros x ?%elem_of_nil.
  - destruct (Str.split_scan s) as [w' ws'].
    destruct (IH w' ws' eq_refl) as [Hpre Hws].
    destruct (Str.isspace c); intros [= <- <-]; cbn [Str.contains].
    + split; [done|]. intros x [->|Hx]%emit_elem_of.
      * rewrite (prefix_contains _ _ Hpre). apply orb_true_r.
      * rewrite (Hws x Hx). apply orb_true_r.
    + split.
      * by rewrite prefix_cons, Ascii.eqb_refl.
      * intros x Hx. rewrite (Hws x Hx). apply orb_true_r.
Qed.

(** Every word of [s.split()] is a substring of [s]. *)
Lemma split_contained s x : x ∈ Str.split s → Str.contains x s = true.
Proof.
  unfold Str.split. destruct (Str.split_scan s) as [w ws] eqn:Hscan.
  apply split_scan_contained in Hscan as [Hpre Hws].
  intros [->|Hx]%emit_elem_of; auto using prefix_contains.
Qed.

(** A text that starts with a non-blank character has a last word. *)
Lemma split_last_is_Some c s :
  Str.isspace c = false → is_Some (last (Str.split (String c s))).
Proof.
  intros Hc. unfold Str.split. simpl.
  destruct (Str.split_scan s) as [w ws]. rewrite Hc. unfold Str.emit. simpl.
  destruct ws as [|x ws]; [by eexists|].
  rewrite last_cons. destruct (last (x :: ws)); by eexists.
Qed.

Lemma last_item_Ok {A} (xs : list A) x :
  Str.last_item xs = Ok x ↔ last xs = Some x.
Proof. unfold Str.last_item. destruct (last xs); split; congruence. Qed.

(** The marker lines of [wg show] and of the configuration file start
    with a letter, so taking their last word cannot raise. *)
Lemma last_word_of_marked c p line :
  Str.isspace c = false → Str.startswith (String c p) line = true →
  ∃ word, Str.last_item (Str.split line) = Ok word ∧ last (Str.split line) = Some word.
Proof.
  intros Hc (s' & -> & _)%startswith_cons.
  destruct (split_last_is_Some c s' Hc) as [word Hword].
  exists word. by rewrite last_item_Ok.
Qed.

(** Splitting [a/m] at the slash when [a] has none. *)
Lemma split_on_scan_app sep a m :
  Str.contains (String sep EmptyString) a = false →
  Str.split_on_scan sep (a +:+ String sep m) = (a, Str.split_on sep m).
Proof.
  induction a as [|c a IH].
  - intros _. change (EmptyString +:+ String sep m) with (String sep m).
    cbn [Str.split_on_scan]. rewrite Ascii.eqb_refl.
    unfold Str.split_on. by destruct (Str.split_on_scan sep m).
  - rewrite contains_char. intros [Hc Ha]%orb_false_iff.
    change (String c a +:+ String sep m) with (String c (a +:+ String sep m)).
    cbn [Str.split_on_scan]. rewrite (IH Ha).
    rewrite Ascii.eqb_sym in Hc. by rewrite Hc.
Qed.

Lemma split_on_head sep a m :
  Str.contains (String sep EmptyString) a = false →
  Str.split_on sep (a +:+ String sep m) = a :: Str.split_on sep m.
Proof. intros Ha. unfold Str.split_on at 1. by rewrite split_on_scan_app. Qed.

Lemma split_on_none sep a :
  Str.contains (String sep EmptyString) a = false → Str.split_on sep a = [a].
Proof.
  unfold Str.split_on. induction a as [|c a IH]; cbn [Str.split_on_scan]; [done|].
  rewrite contains_char. intros [Hc Ha]%orb_false_iff. specialize (IH Ha).
  destruct (Str.split_on_scan sep a) as [w ws].
  rewrite Ascii.eqb_sym in Hc. rewrite Hc. by injection IH as -> ->.
Qed.

Lemma all_digits_no_slash s :
  Str.all_digits s = true → Str.contains "/" s = false.
Proof.
  induction s as [|c s IH]; [done|]. cbn [Str.all_digits].
  intros [Hc Hs]%andb_true_iff. rewrite contains_char, (IH Hs), orb_false_r.
  destruct (Ascii.eqb_spec "/" c) as [<-|]; [|done]. by vm_compute in Hc.
Qed.

(** ** Reading the status output *)

Lemma find_using_ips_app pre post :
  find_using_ips (pre ++ post) = (find_using_ips pre ++ find_using_ips post)%list.
Proof.
  induction pre as [|line pre IH]; [done|]. cbn [app find_using_ips].
  rewrite IH. by destruct (_ && _).
Qed.

Lemma find_using_ips_skip line rest :
  Str.startswith "allowed ips" line && negb (Str.contains "(none)" line) = false →
  find_using_ips (line :: rest) = find_using_ips rest.
Proof. intros H. cbn [find_using_ips]. by rewrite H. Qed.

Lemma find_using_ips_yield line rest :
  Str.startswith "allowed ips" line = true →
  Str.contains "(none)" line = false →
  ∃ entry, last (Str.split line) = Some entry ∧
    find_using_ips (line :: rest) = Ok entry :: find_using_ips rest.
Proof.
  intros Hpre Hnone. cbn [find_using_ips]. rewrite Hpre, Hnone.
  destruct (last_word_of_marked "a" _ line eq_refl Hpre) as (entry & -> & Hlast).
  eauto.
Qed.

(** The generator never raises, and yields exactly the entries of the
    peer lines. *)
Lemma find_using_ips_elem_of wg_output item :
  item ∈ find_using_ips wg_output ↔
  ∃ line entry, line ∈ wg_output ∧ peer_entry line entry ∧ item = Ok entry.
Proof.
  induction wg_output as [|line rest IH].
  - split; [by intros ?%elem_of_nil|]. by intros (? & ? & ?%elem_of_nil & _).
  - destruct (Str.startswith "allowed ips" line) eqn:Hpre;
      [destruct (Str.contains "(none)" line) eqn:Hnone|].
    + rewrite find_using_ips_skip by (by rewrite Hpre, Hnone). rewrite IH. split.
      * intros (l & e & Hl & He & ->). exists l, e. by rewrite elem_of_cons; auto.
      * intros (l & e & [->|Hl]%elem_of_cons & He & ->); [|by eauto].
        destruct He as (_ & He & _). congruence.
    + destruct (find_using_ips_yield line rest Hpre Hnone) as (entry & Hlast & ->).
      rewrite elem_of_cons, IH. split.
      * intros [->|(l & e & Hl & He & ->)].
        -- exists line, entry. split_and!; [by left|done|done].
        -- exists l, e. by rewrite elem_of_cons; auto.
      * intros (l & e & [->|Hl]%elem_of_cons & He & ->); [|by eauto 6].
        left. destruct He as (_ & _ & He). congruence.
    + rewrite find_using_ips_skip by (by rewrite Hpre). rewrite IH. split.
      * intros (l & e & Hl & He & ->). exists l, e. by rewrite elem_of_cons; auto.
      * intros (l & e & [->|Hl]%elem_of_cons & He & ->); [|by eauto].
        destruct He as (He & _). congruence.
Qed.

Section StatusClaims.
Context `{V6 : IPv6}.

Lemma used_ips_of_cons item rest :
  used_ips_of (item :: rest)
  = rbind item (fun ip =>
    rbind (Str.first_item (Str.split_on "/" ip)) (fun host =>
    rbind (ip_address host) (fun a =>
    rbind (used_ips_of rest) (fun used => Ok ({[a]} ∪ used))))).
Proof. reflexivity. Qed.

(** The set comprehension holds the addresses of the items, nothing else. *)
Lemma used_ips_of_elem_of items used a :
  used_ips_of items = Ok used →
  a ∈ used ↔ ∃ entry, Ok entry ∈ items ∧ entry_address entry a.
Proof.
  revert used. induction items as [|item rest IH]; intros used.
  - intros [= <-]. split; [by intros ?%not_elem_of_empty|].
    by intros (? & ?%elem_of_nil & _).
  - rewrite used_ips_of_cons. destruct item as [ip|]; [|done]. simpl.
    destruct (Str.first_item _) as [host|] eqn:Hhost; [|done]. simpl.
    destruct (ip_address host) as [b|] eqn:Hb; [|done]. simpl.
    destruct (used_ips_of rest) as [used'|] eqn:Hrest; [|done]. simpl.
    intros [= <-]. rewrite elem_of_union, elem_of_singleton, (IH used' eq_refl).
    split.
    + intros [->|(entry & He & Ha)].
      * exists ip. split; [by left|]. by exists host.
      * exists entry. split; [by right|done].
    + intros (entry & [[= ->]|He]%elem_of_cons & Ha); [|by eauto].
      left. destruct Ha as (host' & Hhost' & Ha). congruence.
Qed.

(** Items that differ only after the slash give the same set. *)
Lemma first_item_host host p :
  Str.contains "/" host = false →
  Str.first_item (Str.split_on "/" (host +:+ "/" +:+ p)) = Ok host.
Proof.
  intros Hh. change ("/" +:+ p) with (String "/" p).
  by rewrite (split_on_head "/" host p Hh).
Qed.

Lemma used_ips_of_same_host items1 items2 :
  Forall2 same_host items1 items2 → used_ips_of items1 = used_ips_of items2.
Proof.
  induction 1 as [|i1 i2 r1 r2 (host & p & q & Hh & -> & ->) _ IH]; [done|].
  rewrite !used_ips_of_cons. cbn [rbind].
  by rewrite !first_item_host, IH.
Qed.

(** C5. In every status text, a line that starts with ["allowed ips"] and
    whose value, its last word, is the placeholder ["(none)"] adds no entry:
    the entries and the used-address set are those of the text without that
    line.  A line that starts with ["allowed ips"] and does not contain the
    placeholder adds its last word as an entry, at its place. *)
Theorem find_using_ips_placeholder (pre post : list string) (line : string) :
  Str.startswith "allowed ips" line = true →
  (last (Str.split line) = Some "(none)" →
     find_using_ips (pre ++ line :: post) = find_using_ips (pre ++ post) ∧
     used_ips_of (find_using_ips (pre ++ line :: post))
     = used_ips_of (find_using_ips (pre ++ post))) ∧
  (Str.contains "(none)" line = false →
     ∃ entry, last (Str.split line) = Some entry ∧
       find_using_ips (pre ++ line :: post)
       = (find_using_ips pre ++ Ok entry :: find_using_ips post)%list).
Proof.
  intros Hpre. split.
  - intros Hlast.
    assert (Str.contains "(none)" line = true) as Hnone.
    { apply split_contained. apply last_Some_elem_of, Hlast. }
    assert (find_using_ips (pre ++ line :: post) = find_using_ips (pre ++ post)) as ->;
      [|done].
    rewrite !find_using_ips_app. f_equal.
    apply find_using_ips_skip. by rewrite Hpre, Hnone.
  - intros Hnone.
    destruct (find_using_ips_yield line post Hpre Hnone) as (entry & Hlast & Heq).
    exists entry. split; [done|]. by rewrite find_using_ips_app, Heq.
Qed.

End StatusClaims.

(** ** Running computations *)

Lemma bind_run {A B} (m : M A) (k : A → M B) w tr :
  (m ≫= k) w tr =
  match m w tr with
  | (Ok a, tr') => k a w tr'
  | (Err e, tr') => (Err e, tr')
  end.
Proof. reflexivity. Qed.

Lemma bind_inv {A B} (m : M A) (k : A → M B) w tr r tr' :
  (m ≫= k) w tr = (r, tr') →
  (∃ a tr1, m w tr = (Ok a, tr1) ∧ k a w tr1 = (r, tr')) ∨
  (∃ e, m w tr = (Err e, tr') ∧ r = Err e).
Proof.
  rewrite bind_run. destruct (m w tr) as [[a|e] tr1].
  - intros Hk. left. eauto.
  - intros [= <- <-]. right. eauto.
Qed.

Section AddressClaims.
Context `{V6 : IPv6}.

(** What [find_address] does: it probes the file, then opens it, reads
    it and runs its loop over the lines. *)
Lemma find_address_run name w tr :
  find_address name w tr =
  match file_text w (config_path name) with
  | Some config =>
      (find_address_lines (Str.readlines config),
       tr ++ [IsFile (config_path name); OpenRead (config_path name)])%list
  | None =>
      if undecodable w (config_path name)
      then (Err (UnicodeDecodeError (config_path name)),
            tr ++ [IsFile (config_path name); OpenRead (config_path name)])%list
      else (Err (config_missing name), tr ++ [IsFile (config_path name)])%list
  end.
Proof.
  unfold find_address. rewrite !bind_run. unfold log, ask. rewrite !bind_run.
  destruct (file_text w (config_path name)) as [config|].
  - rewrite bind_run. unfold log, lift. by rewrite <- app_assoc.
  - rewrite bind_run. destruct (undecodable w (config_path name)); [|done].
    rewrite bind_run. unfold log, raise. by rewrite <- app_assoc.
Qed.

(** What [make_new_ip] does once the address directive is read. *)
Lemma make_new_ip_run name wg_output w tr :
  make_new_ip name wg_output w tr =
  match find_address name w tr with
  | (Ok (address, address_as_ip), tr') =>
      (rbind (used_ips_of (find_using_ips wg_output)) (fun peers =>
       rmap (fun new_ip => str_address new_ip +:+ "/32")
            (find_unused_ip ({[address_as_ip]} ∪ peers) address)), tr')
  | (Err e, tr') => (Err e, tr')
  end.
Proof.
  unfold make_new_ip. rewrite bind_run.
  destruct (find_address name w tr) as [[[address address_as_ip]|e] tr']; [|done].
  rewrite bind_run. unfold lift.
  destruct (used_ips_of _) as [peers|e]; [|done]. rewrite bind_run. cbn [rbind].
  by destruct (find_unused_ip _ _).
Qed.

Lemma find_address_lines_none lines :
  Forall no_directive lines →
  find_address_lines lines = Err AddressDirectiveMissing.
Proof.
  induction 1 as [|line rest Hline _ IH]; [done|].
  cbn [find_address_lines]. by rewrite Hline.
Qed.

(** The loop stops at the first line that starts with ["Address"] and
    reads the last word of that line twice: as a network, not strictly,
    and, cut at the slash, as an address. *)
Lemma find_address_lines_first pre line post :
  Forall no_directive pre → Str.startswith "Address" line = true →
  find_address_lines (pre ++ line :: post) =
    rbind (Str.last_item (Str.split line)) (fun ip =>
    rbind (ip_network ip false) (fun net =>
    rbind (Str.first_item (Str.split_on "/" ip)) (fun host =>
    rbind (ip_address host) (fun a => Ok (net, a))))).
Proof.
  intros Hpre Hline. induction Hpre as [|l pre Hl _ IH].
  - cbn [app find_address_lines]. by rewrite Hline.
  - cbn [app find_address_lines]. by rewrite Hl.
Qed.

(** A dotted quad followed by a prefix length: the network is the address
    under the netmask, whether or not host bits are set. *)
Lemma ip_network_cidr addr mask packed prefixlen :
  IPv4.address_of_string addr = Some packed →
  IPv4.prefix_from_prefix_string mask = Some prefixlen →
  ip_network (addr +:+ "/" +:+ mask) false
  = Ok (IPv4Network
          (IPv4.Net (Z.land packed (IPv4.ip_int_from_prefix prefixlen)) prefixlen)).
Proof.
  intros Haddr Hmask. unfold ip_network, IPv4.network_of_string, IPv4.split_addr_prefix.
  assert (Str.contains "/" addr = false) as Hslash.
  { unfold IPv4.address_of_string in Haddr. by destruct (Str.contains "/" addr). }
  assert (Str.contains "/" mask = false) as Hmslash.
  { unfold IPv4.prefix_from_prefix_string, Str.isascii_isdigit in Hmask.
    destruct (Str.all_digits mask) eqn:Hd; [by apply all_digits_no_slash|].
    by rewrite andb_false_r in Hmask. }
  change ("/" +:+ mask) with (String "/" mask).
  rewrite (split_on_head "/" addr mask Hslash), (split_on_none "/" mask Hmslash).
  rewrite Haddr. cbn [from_option]. unfold IPv4.make_netmask. rewrite Hmask.
  destruct (Z.eqb_spec (Z.land packed (IPv4.ip_int_from_prefix prefixlen)) packed)
    as [Heq|]; cbn [negb]; [|done].
  by rewrite Heq.
Qed.

Lemma ip_address_dotted addr packed :
  IPv4.address_of_string addr = Some packed → ip_address addr = Ok (IPv4Address packed).
Proof. intros H. unfold ip_address. by rewrite H. Qed.

(** C6. For every configuration file, [find_address] takes the first line
    that starts with ["Address"]; when the last word of that line is a
    dotted quad, a slash and a prefix length, it returns the network that
    contains the address (the address under the netmask, host bits
    allowed and dropped) and the address itself.  When no line starts with
    ["Address"] it raises the exception of a missing directive. *)
Theorem find_address_first_directive
    (name : string) (w : world) (tr : list event) (config : string) :
  file_text w (config_path name) = Some config →
  (Forall no_directive (Str.readlines config) →
     find_address name w tr
     = (Err AddressDirectiveMissing,
        tr ++ [IsFile (config_path name); OpenRead (config_path name)])%list) ∧
  (∀ pre line post addr mask packed prefixlen,
     Str.readlines config = (pre ++ line :: post)%list →
     Forall no_directive pre →
     Str.startswith "Address" line = true →
     last (Str.split line) = Some (addr +:+ "/" +:+ mask) →
     IPv4.address_of_string addr = Some packed →
     IPv4.prefix_from_prefix_string mask = Some prefixlen →
     find_address name w tr
     = (Ok (IPv4Network
              (IPv4.Net (Z.land packed (IPv4.ip_int_from_prefix prefixlen))
                        prefixlen),
            IPv4Address packed),
        tr ++ [IsFile (config_path name); OpenRead (config_path name)])%list).
Proof.
  intros Hfile. rewrite find_address_run, Hfile. split.
  - intros Hnone. by rewrite find_address_lines_none.
  - intros pre line post addr mask packed prefixlen -> Hpre Hline Hlast Haddr Hmask.
    rewrite (find_address_lines_first pre line post Hpre Hline).
    apply last_item_Ok in Hlast. rewrite Hlast. cbn [rbind].
    rewrite (ip_network_cidr addr mask packed prefixlen Haddr Hmask). cbn [rbind].
    assert (Str.contains "/" addr = false) as Hslash.
    { unfold IPv4.address_of_string in Haddr. by destruct (Str.contains "/" addr). }
    rewrite (first_item_host addr mask Hslash). cbn [rbind].
    by rewrite (ip_address_dotted addr packed Haddr).
Qed.


(** C10. An entry [A/p] of the status output marks the one address [A]
    as used in [make_new_ip], whatever follows the slash.  The set
    [make_new_ip] hands to the allocator holds, besides the interface's
    own address, one address for each entry: the address that the text
    before the entry's first slash reads as.  So status outputs whose
    entries differ only after the slash give the same run, and the
    address [make_new_ip] returns is the first host of the subnet that
    equals neither the interface's address nor the address of an entry:
    a host is passed over only when it is one of these, never because it
    lies in the range an entry [A/p] spans. *)
Theorem make_new_ip_drops_prefix
    (name : string) (wg_output : list string) (w : world) (tr tr' : list event)
    (address : IPNetwork) (address_as_ip : IPAddress) (peers : gset IPAddress) :
  find_address name w tr = (Ok (address, address_as_ip), tr') →
  used_ips_of (find_using_ips wg_output) = Ok peers →
  make_new_ip name wg_output w tr
  = (rmap (fun new_ip => str_address new_ip +:+ "/32")
          (find_unused_ip ({[address_as_ip]} ∪ peers) address), tr') ∧
  (∀ a, a ∈ peers ↔
        ∃ line entry, line ∈ wg_output ∧ peer_entry line entry ∧
                      entry_address entry a) ∧
  (∀ host p a, Str.contains "/" host = false →
     entry_address (host +:+ "/" +:+ p) a ↔ ip_address host = Ok a) ∧
  (∀ wg_output2,
     Forall2 same_host (find_using_ips wg_output) (find_using_ips wg_output2) →
     make_new_ip name wg_output2 w tr = make_new_ip name wg_output w tr) ∧
  (∀ new_ip, find_unused_ip ({[address_as_ip]} ∪ peers) address = Ok new_ip →
     ∃ i : nat, hosts address !! i = Some new_ip ∧
       new_ip ≠ address_as_ip ∧
       (∀ line entry, line ∈ wg_output → peer_entry line entry →
                      ¬ entry_address entry new_ip) ∧
       ∀ (j : nat) x, hosts address !! j = Some x → (j < i)%nat →
         x = address_as_ip ∨
         ∃ line entry, line ∈ wg_output ∧ peer_entry line entry ∧
                       entry_address entry x).
Proof.
  intros Hfind Hpeers.
  assert (∀ a, a ∈ peers ↔
            ∃ line entry, line ∈ wg_output ∧ peer_entry line entry ∧
                          entry_address entry a) as Hset.
  { intros a. rewrite (used_ips_of_elem_of _ _ a Hpeers). split.
    - intros (entry & Hitem & Ha).
      apply find_using_ips_elem_of in Hitem as (line & e & Hline & He & [= ->]).
      eauto.
    - intros (line & entry & Hline & He & Ha).
      exists entry. split; [|done]. apply find_using_ips_elem_of. eauto. }
  split_and!.
  - by rewrite make_new_ip_run, Hfind, Hpeers.
  - done.
  - intros host p a Hh. unfold entry_address. rewrite (first_item_host host p Hh).
    split; [by intros (? & [= <-] & ?)|by eauto].
  - intros wg_output2 Hsame. rewrite !make_new_ip_run.
    by rewrite (used_ips_of_same_host _ _ Hsame).
  - intros new_ip (i & Hi & Hfree & Hlt)%find_unused_ip_Ok.
    rewrite not_elem_of_union, not_elem_of_singleton in Hfree.
    destruct Hfree as [Hiface Hnew].
    exists i. split_and!; [done|done| |].
    + intros line entry Hline He Ha. apply Hnew, Hset. eauto.
    + intros j x Hj Hji.
      pose proof (Hlt j x Hj Hji) as Hx.
      apply elem_of_union in Hx as [->%elem_of_singleton|Hx]; [by left|right].
      by apply Hset.
Qed.

(** C3. With the interface at 10.10.50.1 in 10.10.50.0/24 and the peer
    entries standing for the addresses 10.10.50.2 and 10.10.50.3,
    [make_new_ip] returns ["10.10.50.4/32"]. *)
Theorem make_new_ip_scenario_A
    (name : string) (wg_output : list string) (w : world) (tr tr' : list event) :
  find_address name w tr
  = (Ok (IPv4Network (IPv4.Net 168440320 24), IPv4Address 168440321), tr') →
  used_ips_of (find_using_ips wg_output)
  = Ok {[IPv4Address 168440322; IPv4Address 168440323]} →
  make_new_ip name wg_output w tr = (Ok "10.10.50.4/32", tr').
Proof.
  intros Hfind Hpeers. rewrite make_new_ip_run, Hfind, Hpeers.
  apply (f_equal (fun r => (r, tr'))). by vm_compute.
Qed.

End AddressClaims.

(** ** What the steps of a run do to the environment *)

Lemma emits_ret {A} P (a : A) : emits P (mret a).
Proof. intros w tr r tr' [= <- <-]. exists []. by rewrite app_nil_r. Qed.

Lemma emits_raise {A} P e : emits P (raise (A := A) e).
Proof. intros w tr r tr' [= <- <-]. exists []. by rewrite app_nil_r. Qed.

Lemma emits_lift {A} P (x : result A) : emits P (lift x).
Proof. intros w tr r tr' [= <- <-]. exists []. by rewrite app_nil_r. Qed.

Lemma emits_ask {A} P (f : world → A) : emits P (ask f).
Proof. intros w tr r tr' [= <- <-]. exists []. by rewrite app_nil_r. Qed.

Lemma emits_log P ev : P ev → emits P (log ev).
Proof. intros Hev w tr r tr' [= <- <-]. exists [ev]. by rewrite Forall_singleton. Qed.

Lemma emits_bind {A B} P (m : M A) (k : A → M B) :
  emits P m → (∀ a, emits P (k a)) → emits P (m ≫= k).
Proof.
  intros Hm Hk w tr r tr' Hrun.
  apply bind_inv in Hrun as [(a & tr1 & Hrun1 & Hrun2)|(e & Hrun1 & _)].
  - destruct (Hm _ _ _ _ Hrun1) as (evs1 & -> & Hevs1).
    destruct (Hk a _ _ _ _ Hrun2) as (evs2 & -> & Hevs2).
    exists (evs1 ++ evs2)%list. by rewrite app_assoc, Forall_app.
  - eauto.
Qed.

Lemma emits_py_assert P cond msg : emits P (py_assert cond msg).
Proof. destruct cond; [apply emits_ret|apply emits_raise]. Qed.

Lemma emits_impl {A} (P Q : event → Prop) (m : M A) :
  (∀ ev, P ev → Q ev) → emits P m → emits Q m.
Proof.
  intros HPQ Hm w tr r tr' Hrun. destruct (Hm _ _ _ _ Hrun) as (evs & -> & Hevs).
  exists evs. split; [done|]. by eapply Forall_impl.
Qed.

(** A property of the trace so far survives a computation that emits
    only events with that property. *)
Lemma emits_Forall {A} P (m : M A) w tr r tr' :
  emits P m → m w tr = (r, tr') → Forall P tr → Forall P tr'.
Proof.
  intros Hm Hrun Htr. destruct (Hm _ _ _ _ Hrun) as (evs & -> & Hevs).
  by rewrite Forall_app.
Qed.

Lemma harmless_quiet ev : harmless ev → quiet ev.
Proof. by intros (_ & ? & ?). Qed.

Create HintDb emits.
#[local] Hint Resolve emits_ret emits_raise emits_lift emits_ask emits_py_assert
  emits_bind : emits.

Ltac emits_steps :=
  repeat first
    [ apply emits_bind; [|intros ?]
    | apply emits_log; by repeat split
    | match goal with |- emits _ (match ?x with _ => _ end) => destruct x end
    | solve [auto with emits] ].

(** Unfolding the plumbing of [M]. *)
Ltac run_unfold :=
  cbv beta iota zeta delta
    [mbind M_bind bind mret M_ret ret log ask lift raise py_assert].

Lemma emits_check_output P argv stdin :
  P (Spawn argv stdin) → emits P (check_output argv stdin).
Proof.
  intros Hev. unfold check_output. apply emits_bind; [by apply emits_log|].
  intros _. apply emits_bind; [apply emits_ask|].
  intros [status out]. destruct (status =? 0); auto with emits.
Qed.

Lemma emits_call P argv :
  P (Spawn argv EmptyString) → emits P (call argv).
Proof.
  intros Hev. unfold call. apply emits_bind; [by apply emits_log|].
  intros _. apply emits_ask.
Qed.

Section PipelineFacts.
Context `{V6 : IPv6}.

Lemma emits_get_wg_show_output : emits harmless get_wg_show_output.
Proof.
  unfold get_wg_show_output. apply emits_bind; [by apply emits_check_output|].
  intros raw_output. emits_steps.
Qed.

Lemma emits_get_user : emits harmless get_user.
Proof. unfold get_user, input. emits_steps. Qed.

Lemma emits_gen_private_key : emits harmless gen_private_key.
Proof.
  unfold gen_private_key. apply emits_bind; [by apply emits_check_output|].
  intros out. emits_steps.
Qed.

Lemma emits_gen_public_key private_key :
  emits harmless (gen_public_key private_key).
Proof.
  unfold gen_public_key. apply emits_bind; [by apply emits_log|]. intros _.
  apply emits_bind; [apply emits_ask|]. intros ps_stdout.
  apply emits_bind; [by apply emits_check_output|]. intros out. emits_steps.
Qed.

Lemma emits_find_address name : emits harmless (find_address name).
Proof. unfold find_address. emits_steps. Qed.

Lemma emits_make_new_ip name wg_output :
  emits harmless (make_new_ip name wg_output).
Proof.
  unfold make_new_ip. apply emits_bind; [apply emits_find_address|].
  intros [address address_as_ip]. emits_steps.
Qed.

Lemma emits_fs_call P ev path : P ev → emits P (fs_call ev path).
Proof. intros Hev. unfold fs_call. emits_steps. Qed.

Lemma emits_make_qr_code username : emits quiet (make_qr_code username).
Proof. unfold make_qr_code, call_shell. emits_steps. Qed.

Lemma emits_make_configs username ip private_key server_public_key :
  emits quiet (make_configs username ip private_key server_public_key).
Proof.
  unfold make_configs, mkdir, chdir, write_text.
  repeat (apply emits_bind; [by apply emits_fs_call|intros _]).
  apply emits_make_qr_code.
Qed.

(** What a call that changes the file system does. *)
Lemma fs_call_run ev path w tr :
  fs_call ev path w tr =
  if Str.contains (String "000" EmptyString) path
  then (Err (ValueError "embedded null byte"), tr)
  else (match fs_errno w ev with
        | Some n => Err (OSError n path)
        | None => Ok tt
        end, tr ++ [ev])%list.
Proof.
  unfold fs_call. destruct (Str.contains _ path); [done|].
  run_unfold. by destruct (fs_errno w ev).
Qed.

Lemma fs_call_result ev path w tr r tr' :
  fs_call ev path w tr = (r, tr') →
  r = Ok tt ∨ (∃ errno, r = Err (OSError errno path)) ∨
  (r = Err (ValueError "embedded null byte") ∧ tr' = tr).
Proof.
  rewrite fs_call_run. destruct (Str.contains _ path).
  - intros [= <- <-]. by right; right.
  - destruct (fs_errno w ev); intros [= <- _]; eauto.
Qed.

Lemma fs_call_Ok ev path w tr tr' :
  fs_call ev path w tr = (Ok tt, tr') → tr' = (tr ++ [ev])%list.
Proof.
  rewrite fs_call_run. destruct (Str.contains _ path); [done|].
  by intros [= _ <-].
Qed.

Lemma make_qr_code_Ok username w tr r tr' :
  make_qr_code username w tr = (r, tr') → r = Ok tt.
Proof. unfold make_qr_code, call_shell. run_unfold. by intros [= <- _]. Qed.

(** [make_configs] can only fail in [os.mkdir], in [os.chdir] or when it
    writes the configuration file, with the exception of that call; a
    path it rejects itself is rejected by [os.mkdir], before anything is
    done. *)
Lemma make_configs_result username ip private_key server_public_key w tr r tr' :
  make_configs username ip private_key server_public_key w tr = (r, tr') →
  r = Ok tt ∨ (∃ errno path, r = Err (OSError errno path)) ∨
  (r = Err (ValueError "embedded null byte") ∧ tr' = tr).
Proof.
  unfold make_configs, mkdir, chdir, write_text. intros Hrun.
  apply bind_inv in Hrun as [([] & tr1 & Hmk & Hrun)|(e & Hmk & ->)].
  2: { apply fs_call_result in Hmk as [?|[(errno & [= ->])|[[= ->] ->]]];
         [done|eauto|eauto]. }
  assert (Str.contains (String "000" EmptyString) username = false) as Hnul.
  { rewrite fs_call_run in Hmk. by destruct (Str.contains _ username). }
  apply bind_inv in Hrun as [([] & tr2 & Hcd & Hrun)|(e & Hcd & ->)].
  2: { rewrite fs_call_run, Hnul in Hcd. destruct (fs_errno w _); simplify_eq. eauto. }
  apply bind_inv in Hrun as [([] & tr3 & Hwr & Hrun)|(e & Hwr & ->)].
  2: { rewrite fs_call_run, contains_char_app, Hnul in Hwr.
       change (Str.contains _ ".conf") with false in Hwr. cbn [orb] in Hwr.
       destruct (fs_errno w _); simplify_eq. eauto. }
  apply make_qr_code_Ok in Hrun as ->. by left.
Qed.

Lemma insert_new_peer_run public_key ip name w tr :
  insert_new_peer public_key ip name w tr =
  (if (run_process w (wg_set_argv public_key ip name) EmptyString).1 =? 0
   then Ok tt else Err RegistrationFailed,
   tr ++ [Spawn (wg_set_argv public_key ip name) EmptyString])%list.
Proof.
  unfold insert_new_peer, call. rewrite !bind_run. unfold log, ask.
  by destruct (_ =? 0).
Qed.

Lemma save_new_config_run name w tr :
  save_new_config name w tr =
  (if (run_process w ["wg-quick"; "save"; name] EmptyString).1 =? 0
   then Ok tt else Err PersistFailed,
   tr ++ [Spawn ["wg-quick"; "save"; name] EmptyString])%list.
Proof.
  unfold save_new_config, call. rewrite !bind_run. unfold log, ask.
  by destruct (_ =? 0).
Qed.

(** The status query is the only thing [get_wg_show_output] does. *)
Lemma get_wg_show_output_trace w tr r tr' :
  get_wg_show_output w tr = (r, tr') →
  tr' = (tr ++ [Spawn ["wg"; "show"] EmptyString])%list.
Proof.
  unfold get_wg_show_output, check_output. run_unfold.
  destruct (run_process w _ _) as [status out].
  destruct (status =? 0); [|by intros [= _ <-]].
  by destruct (nonempty _); intros [= _ <-].
Qed.

(** Every run has one of the four shapes. *)
Lemma main_run_shape w : run_shape w (run_main w).1 (run_main w).2.
Proof.
  destruct (run_main w) as [r tr] eqn:Hrun. unfold run_main, main in Hrun.
  assert (Forall harmless []) as Htr by constructor.
  apply bind_inv in Hrun as [(lines & tr1 & Hstep & Hrun)|(e & Hstep & ->)];
    apply (emits_Forall _ _ _ _ _ _ emits_get_wg_show_output Hstep) in Htr;
    [|by constructor].
  apply bind_inv in Hrun as [(name & ? & [= ? <-] & Hrun)|(e & [= ? <-] & ->)];
    [|by constructor].
  apply bind_inv in Hrun as [(key & ? & [= ? <-] & Hrun)|(e & [= ? <-] & ->)];
    [|by constructor].
  clear Hstep.
  apply bind_inv in Hrun as [(username & tr2 & Hstep & Hrun)|(e & Hstep & ->)];
    apply (emits_Forall _ _ _ _ _ _ emits_get_user Hstep) in Htr;
    [|by constructor].
  clear Hstep.
  apply bind_inv in Hrun as [(private_key & tr3 & Hstep & Hrun)|(e & Hstep & ->)];
    apply (emits_Forall _ _ _ _ _ _ emits_gen_private_key Hstep) in Htr;
    [|by constructor].
  clear Hstep.
  apply bind_inv in Hrun as [(public_key & tr4 & Hstep & Hrun)|(e & Hstep & ->)];
    apply (emits_Forall _ _ _ _ _ _ (emits_gen_public_key _) Hstep) in Htr;
    [|by constructor].
  clear Hstep.
  apply bind_inv in Hrun as [(ip & tr5 & Hstep & Hrun)|(e & Hstep & ->)];
    apply (emits_Forall _ _ _ _ _ _ (emits_make_new_ip _ _) Hstep) in Htr;
    [|by constructor].
  clear Hstep. pose proof (Forall_impl _ quiet _ Htr harmless_quiet) as Hquiet.
  apply bind_inv in Hrun as [([] & tr6 & Hstep & Hrun)|(e & Hstep & ->)];
    pose proof (make_configs_result _ _ _ _ _ _ _ _ Hstep) as Hres;
    apply (emits_Forall _ _ _ _ _ _ (emits_make_configs _ _ _ _) Hstep) in Hquiet.
  2: { destruct Hres as [?|[(errno & path & [= ->])|[[= ->] ->]]];
         [done|by constructor|by constructor]. }
  clear Hstep Hres Htr. rename Hquiet into Htr.
  rewrite bind_run, insert_new_peer_run in Hrun.
  destruct (_ =? 0) eqn:Hset in Hrun.
  - rewrite save_new_config_run, <- app_assoc in Hrun. injection Hrun as <- <-.
    apply run_registered; [done|]. by apply Z.eqb_eq.
  - injection Hrun as <- <-. apply run_registration_failed; [done|].
    by apply Z.eqb_neq.
Qed.


Lemma find_interface_none lines :
  Forall (fun line => Str.startswith "interface: " line = false) lines →
  find_interface lines = Err InterfaceNotFound.
Proof.
  induction 1 as [|line rest Hline _ IH]; [done|].
  cbn [find_interface]. by rewrite Hline.
Qed.

Lemma register_is_register public_key ip name stdin :
  is_register (Spawn (wg_set_argv public_key ip name) stdin) = true.
Proof. reflexivity. Qed.

Lemma quiet_not_persist ev : quiet ev → is_persist ev = false.
Proof. by intros [_ ?]. Qed.

(** C8. When the status query returns lines none of which starts with
    ["interface: "], the run ends with the exception of a missing
    interface, and the status query is all it has done: neither the
    prompt, nor key generation, nor subnet resolution, allocation,
    registration or persistence took place. *)
Theorem main_interface_not_found (w : world) (lines : list string) (tr1 : list event) :
  get_wg_show_output w [] = (Ok lines, tr1) →
  Forall (fun line => Str.startswith "interface: " line = false) lines →
  run_main w = (Err InterfaceNotFound, [Spawn ["wg"; "show"] EmptyString]).
Proof.
  intros Hshow Hlines. unfold run_main, main.
  rewrite bind_run, Hshow, bind_run. unfold lift.
  rewrite (find_interface_none lines Hlines).
  by rewrite (get_wg_show_output_trace _ _ _ _ Hshow).
Qed.

(** C7. In every run: if the registration command was run and exited with
    a non-zero status, the run ends with the exception of a failed
    registration and the persist command is not among its events; and
    whenever the persist command is among the events of a run, it is the
    last one and directly follows a registration command that exited with
    status 0. *)
Theorem registration_failure_skips_persist (w : world) :
  (∀ public_key ip name,
     Spawn (wg_set_argv public_key ip name) EmptyString ∈ (run_main w).2 →
     (run_process w (wg_set_argv public_key ip name) EmptyString).1 ≠ 0 →
     (run_main w).1 = Err RegistrationFailed ∧
     Forall (fun ev => is_persist ev = false) (run_main w).2) ∧
  (∀ ev, ev ∈ (run_main w).2 → is_persist ev = true →
     ∃ pre public_key ip name,
       (run_main w).2
       = (pre ++ [Spawn (wg_set_argv public_key ip name) EmptyString; ev])%list ∧
       Forall quiet pre ∧
       (run_process w (wg_set_argv public_key ip name) EmptyString).1 = 0).
Proof.
  pose proof (main_run_shape w) as Hshape.
  destruct (run_main w) as [r tr]. cbn [fst snd] in *. split.
  - intros public_key ip name Hin Hstatus.
    pose proof (register_is_register public_key ip name EmptyString) as Hreg.
    inversion Hshape as [e tr0 Htr|errno path tr0 Htr|pre pk ip' name' Hpre Hst
                        |pre pk ip' name' Hpre Hst]; subst.
    + rewrite Forall_forall in Htr. destruct (Htr _ Hin) as (_ & ? & _). congruence.
    + rewrite Forall_forall in Htr. destruct (Htr _ Hin) as (? & _). congruence.
    + split; [done|]. apply Forall_app. split; [|by repeat constructor].
      by eapply Forall_impl; [|apply quiet_not_persist].
    + apply elem_of_app in Hin as [Hin|Hin].
      * rewrite Forall_forall in Hpre. destruct (Hpre _ Hin) as (? & _). congruence.
      * apply elem_of_cons in Hin as [[= -> -> ->]|Hin]; [done|].
        by apply list_elem_of_singleton in Hin.
  - intros ev Hin Hev.
    inversion Hshape as [e tr0 Htr|errno path tr0 Htr|pre pk ip' name' Hpre Hst
                        |pre pk ip' name' Hpre Hst]; subst.
    + rewrite Forall_forall in Htr. destruct (Htr _ Hin) as (_ & _ & ?). congruence.
    + rewrite Forall_forall in Htr. destruct (Htr _ Hin) as (_ & ?). congruence.
    + apply elem_of_app in Hin as [Hin|Hin].
      * rewrite Forall_forall in Hpre. destruct (Hpre _ Hin) as (_ & ?). congruence.
      * by apply list_elem_of_singleton in Hin as ->.
    + apply elem_of_app in Hin as [Hin|Hin].
      * rewrite Forall_forall in Hpre. destruct (Hpre _ Hin) as (_ & ?). congruence.
      * apply elem_of_cons in Hin as [->|Hin]; [done|].
        apply list_elem_of_singleton in Hin as ->. by exists pre, pk, ip', name'.
Qed.

(** Every run that ends with the exception of an exhausted pool has
    written no artifact and has not touched the interface. *)
Lemma pool_exhausted_harmless (w : world) :
  (run_main w).1 = Err PoolExhausted → Forall harmless (run_main w).2.
Proof.
  pose proof (main_run_shape w) as Hshape.
  destruct (run_main w) as [r tr]. cbn [fst snd] in *. intros ->.
  inversion Hshape as [e tr0 Htr| | |pre pk ip' name' Hpre Hst Hr]; subst; [done|].
  by destruct (_ =? 0).
Qed.

(** C9. In every run in which the pool is exhausted, that is, a run that
    gets as far as the allocator with every host of the subnet among the
    used addresses, the run ends with the exception of an exhausted pool,
    and up to then it has created no directory, written no file, rendered
    no QR code, and run neither the registration nor the persist
    command. *)
Theorem pool_exhausted_before_artifacts
    (w : world) (lines : list string) (name key username private_key public_key : string)
    (address : IPNetwork) (address_as_ip : IPAddress) (peers : gset IPAddress)
    (tr1 tr2 tr3 tr4 tr5 : list event) :
  get_wg_show_output w [] = (Ok lines, tr1) →
  find_interface lines = Ok name →
  find_server_public_key lines = Ok key →
  get_user w tr1 = (Ok username, tr2) →
  gen_private_key w tr2 = (Ok private_key, tr3) →
  gen_public_key private_key w tr3 = (Ok public_key, tr4) →
  find_address name w tr4 = (Ok (address, address_as_ip), tr5) →
  used_ips_of (find_using_ips lines) = Ok peers →
  (∀ a, a ∈ hosts address → a ∈ ({[address_as_ip]} ∪ peers : gset IPAddress)) →
  run_main w = (Err PoolExhausted, tr5) ∧ Forall harmless tr5.
Proof.
  intros Hshow Hname Hkey Huser Hpriv Hpub Haddr Hpeers Hfull.
  assert (run_main w = (Err PoolExhausted, tr5)) as Hrun.
  { unfold run_main, main.
    rewrite bind_run, Hshow, bind_run. unfold lift at 1. rewrite Hname.
    rewrite bind_run. unfold lift at 1. rewrite Hkey.
    rewrite bind_run, Huser, bind_run, Hpriv, bind_run, Hpub, bind_run.
    rewrite make_new_ip_run, Haddr, Hpeers. cbn [rbind].
    assert (find_unused_ip ({[address_as_ip]} ∪ peers) address = Err PoolExhausted)
      as -> by by apply find_unused_ip_Err.
    done. }
  split; [done|].
  pose proof (pool_exhausted_harmless w) as Hquiet. rewrite Hrun in Hquiet. auto.
Qed.

End PipelineFacts.

(** ** The scenarios of the specification, run *)

Section Scenarios.
#[local] Existing Instance no_ipv6.

Lemma get_wg_show_output_A :
  get_wg_show_output (example_world status_A config_A 0) []
  = (Ok lines_A, [Spawn ["wg"; "show"] EmptyString]).
Proof. reflexivity. Qed.

(** C3 in the world of scenario A. *)
Lemma make_new_ip_scenario_A_witness :
  make_new_ip "wg0" lines_A (example_world status_A config_A 0) []
  = (Ok "10.10.50.4/32",
     [IsFile "/etc/wireguard/wg0.conf"; OpenRead "/etc/wireguard/wg0.conf"]).
Proof.
  apply make_new_ip_scenario_A; [reflexivity|].
  apply (f_equal Ok). apply set_eq. intros a.
  rewrite !elem_of_union, !elem_of_singleton, elem_of_empty. tauto.
Defined.

(** C4. A peer line that lists two allowed addresses,
    [allowed ips: 10.10.50.2/32, 10.10.50.3/32]: [find_using_ips] yields
    its last word only, so the set [make_new_ip] builds holds 10.10.50.3
    and the interface's 10.10.50.1 but not 10.10.50.2, and [make_new_ip]
    returns ["10.10.50.2/32"], an address the peer is already allowed;
    the run registers it. *)
Lemma make_new_ip_misses_listed_address :
  get_wg_show_output (example_world status_multi config_A 0) []
  = (Ok lines_multi, [Spawn ["wg"; "show"] EmptyString]) ∧
  find_using_ips lines_multi = [Ok "10.10.50.3/32"] ∧
  used_ips_of (find_using_ips lines_multi) = Ok ({[IPv4Address 168440323]} ∪ ∅) ∧
  ip_address "10.10.50.2" = Ok (IPv4Address 168440322) ∧
  (IPv4Address 168440322
     ∉ ({[IPv4Address 168440321]} ∪ ({[IPv4Address 168440323]} ∪ ∅)
        : gset IPAddress)) ∧
  make_new_ip "wg0" lines_multi (example_world status_multi config_A 0) []
  = (Ok "10.10.50.2/32",
     [IsFile "/etc/wireguard/wg0.conf"; OpenRead "/etc/wireguard/wg0.conf"]) ∧
  (run_main (example_world status_multi config_A 0)).1 = Ok tt ∧
  Spawn (wg_set_argv "cGVlci1wdWJsaWMta2V5=" "10.10.50.2/32" "wg0") EmptyString
    ∈ (run_main (example_world status_multi config_A 0)).2.
Proof.
  split_and!; try reflexivity.
  - rewrite !not_elem_of_union, !not_elem_of_singleton. by split_and!.
  - apply list_elem_of_In. vm_compute. auto 20.
Qed.

(** C5 on a status text with a peer that has no allowed address. *)
Lemma find_using_ips_placeholder_witness :
  find_using_ips
    (["peer: cGVlci1vbmU="] ++ "allowed ips: (none)"
       :: ["peer: cGVlci10d28="; "allowed ips: 10.10.50.3/32"])
  = [Ok "10.10.50.3/32"] ∧
  used_ips_of
    (find_using_ips
       (["peer: cGVlci1vbmU="] ++ "allowed ips: (none)"
          :: ["peer: cGVlci10d28="; "allowed ips: 10.10.50.3/32"]))
  = Ok ({[IPv4Address 168440323]} ∪ ∅).
Proof.
  destruct (find_using_ips_placeholder
              ["peer: cGVlci1vbmU="]
              ["peer: cGVlci10d28="; "allowed ips: 10.10.50.3/32"]
              "allowed ips: (none)" eq_refl) as [Hskip _].
  destruct (Hskip eq_refl) as [Hentries Hused]. split; [exact Hentries|exact Hused].
Defined.

(** C6 on the configuration file of scenario A. *)
Lemma find_address_first_directive_witness :
  find_address "wg0" (example_world status_A config_A 0) []
  = (Ok (IPv4Network (IPv4.Net 168440320 24), IPv4Address 168440321),
     [IsFile "/etc/wireguard/wg0.conf"; OpenRead "/etc/wireguard/wg0.conf"]).
Proof.
  destruct (find_address_first_directive
              "wg0" (example_world status_A config_A 0) [] config_A eq_refl)
    as [_ Hfirst].
  apply (Hfirst ["[Interface]" +:+ nl] ("Address = 10.10.50.1/24" +:+ nl)
                ["ListenPort = 51820" +:+ nl] "10.10.50.1" "24" 168440321 24);
    [reflexivity|repeat constructor|reflexivity..].
Defined.

(** C7 in scenario A with a registration command that exits with 1. *)
Lemma registration_failure_skips_persist_witness :
  (run_main (example_world status_A config_A 1)).1 = Err RegistrationFailed ∧
  Forall (fun ev => is_persist ev = false)
         (run_main (example_world status_A config_A 1)).2.
Proof.
  destruct (registration_failure_skips_persist (example_world status_A config_A 1))
    as [Hfail _].
  apply (Hfail "cGVlci1wdWJsaWMta2V5=" "10.10.50.4/32" "wg0").
  - apply list_elem_of_In. vm_compute. auto 20.
  - vm_compute. discriminate.
Defined.

(** C8 in scenario B. *)
Lemma main_interface_not_found_witness :
  run_main (example_world status_B config_A 0)
  = (Err InterfaceNotFound, [Spawn ["wg"; "show"] EmptyString]).
Proof.
  eapply main_interface_not_found; [vm_compute; reflexivity|]. repeat constructor.
Defined.

(** C9 in scenario D. *)
Lemma pool_exhausted_before_artifacts_witness :
  ∃ tr, run_main (example_world status_D config_D 0) = (Err PoolExhausted, tr) ∧
        Forall harmless tr.
Proof.
  eexists.
  eapply (pool_exhausted_before_artifacts (example_world status_D config_D 0))
    with (peers := {[IPv4Address 168440322]} ∪ ∅);
    [vm_compute; reflexivity..|reflexivity|].
  intros a Ha.
  change (a ∈ [IPv4Address 168440321; IPv4Address 168440322]) in Ha.
  rewrite !elem_of_union, !elem_of_singleton.
  apply elem_of_cons in Ha as [->|Ha]; [by left|].
  apply list_elem_of_singleton in Ha as ->. by right; left.
Defined.

(** C10 on the entry 10.10.50.2/24 in the subnet 10.10.50.0/24: the
    entry reserves 10.10.50.2 alone, and the next peer gets 10.10.50.3,
    an address of the range the entry spans. *)
Lemma make_new_ip_drops_prefix_witness :
  make_new_ip "wg0" ["allowed ips: 10.10.50.2/24"]
    (example_world status_A config_A 0) []
  = (Ok "10.10.50.3/32",
     [IsFile "/etc/wireguard/wg0.conf"; OpenRead "/etc/wireguard/wg0.conf"]) ∧
  (∀ a, entry_address ("10.10.50.2" +:+ "/" +:+ "24") a ↔
        ip_address "10.10.50.2" = Ok a).
Proof.
  destruct (make_new_ip_drops_prefix "wg0" ["allowed ips: 10.10.50.2/24"]
              (example_world status_A config_A 0) []
              [IsFile "/etc/wireguard/wg0.conf"; OpenRead "/etc/wireguard/wg0.conf"]
              (IPv4Network (IPv4.Net 168440320 24)) (IPv4Address 168440321)
              ({[IPv4Address 168440322]} ∪ ∅))
    as (Hrun & _ & Hentry & _).
  - reflexivity.
  - reflexivity.
  - split.
    + rewrite Hrun. reflexivity.
    + intros a. apply Hentry. reflexivity.
Defined.

(** The entry 10.10.50.2/24 reserves 10.10.50.2 alone: the next peer of
    10.10.50.0/24 gets 10.10.50.3. *)
Example make_new_ip_wide_entry :
  make_new_ip "wg0" ["allowed ips: 10.10.50.2/24"]
    (example_world status_A config_A 0) []
  = (Ok "10.10.50.3/32",
     [IsFile "/etc/wireguard/wg0.conf"; OpenRead "/etc/wireguard/wg0.conf"]).
Proof. reflexivity. Qed.

(** On a /31 the allocator hands out the network address itself. *)
Example make_new_ip_slash31 :
  make_new_ip "wg0" ["interface: wg0"] (example_world status_header config_31 0) []
  = (Ok "10.10.50.0/32",
     [IsFile "/etc/wireguard/wg0.conf"; OpenRead "/etc/wireguard/wg0.conf"]).
Proof. reflexivity. Qed.

(** Scenario D by itself: the run stops at the allocator. *)
Example run_scenario_D :
  run_main (example_world status_D config_D 0)
  = (Err PoolExhausted,
     [Spawn ["wg"; "show"] EmptyString; Prompt "Enter Username: ";
      Spawn ["wg"; "genkey"] EmptyString;
      Spawn ["echo"; "cGVlci1wcml2YXRlLWtleQ="] EmptyString;
      Spawn ["wg"; "pubkey"] ("cGVlci1wcml2YXRlLWtleQ=" +:+ nl);
      IsFile "/etc/wireguard/wg0.conf"; OpenRead "/etc/wireguard/wg0.conf"]).
Proof. reflexivity. Qed.

(** An empty status output is rejected before the interface is looked
    for. *)
Example run_empty_status :
  run_main (example_world EmptyString config_A 0)
  = (Err EmptyStatus, [Spawn ["wg"; "show"] EmptyString]).
Proof. reflexivity. Qed.

End Scenarios.

(** ** Further facts about the text operations *)

Lemma lstrip_first s c :
  first_char (Str.lstrip s) = Some c → Str.isspace c = false.
Proof.
  induction s as [|d s IH]; [done|]. cbn [Str.lstrip].
  destruct (Str.isspace d) eqn:Hd; [done|]. by intros [= <-].
Qed.

Lemma rstrip_is_empty s :
  Str.is_empty (Str.rstrip s) = true → Str.rstrip s = EmptyString.
Proof. by destruct (Str.rstrip s). Qed.

Lemma rstrip_last s c :
  last_char (Str.rstrip s) = Some c → Str.isspace c = false.
Proof.
  induction s as [|d s IH]; [done|]. cbn [Str.rstrip].
  destruct (Str.isspace d) eqn:Hd; cbn [andb].
  - destruct (Str.is_empty (Str.rstrip s)) eqn:He; [done|].
    cbn [last_char]. destruct (last_char (Str.rstrip s)) as [e|] eqn:Hl.
    + intros [= <-]. by apply IH.
    + by destruct (Str.rstrip s) as [|x [|y r]]; simplify_eq/=; repeat case_match.
  - cbn [last_char]. destruct (last_char (Str.rstrip s)) as [e|] eqn:Hl.
    + intros [= <-]. by apply IH.
    + by intros [= <-].
Qed.

Lemma rstrip_first s c :
  first_char (Str.rstrip s) = Some c → first_char s = Some c.
Proof.
  destruct s as [|d s]; [done|]. cbn [Str.rstrip].
  by destruct (Str.isspace d && Str.is_empty (Str.rstrip s)).
Qed.

(** [s.strip()] neither starts nor ends with whitespace. *)
Lemma strip_trimmed s : trimmed (Str.strip s).
Proof.
  unfold Str.strip. split.
  - intros c Hc%rstrip_first. by eapply lstrip_first.
  - apply rstrip_last.
Qed.

Lemma emit_Forall (P : string → Prop) w ws :
  (w ≠ EmptyString → P w) → Forall P ws → Forall P (Str.emit w ws).
Proof.
  intros Hw Hws. unfold Str.emit. destruct w; [done|].
  constructor; [by apply Hw|done].
Qed.

(** The scan of [split]: the run at the head has no whitespace, and the
    runs after it are words. *)
Lemma split_scan_words s w ws :
  Str.split_scan s = (w, ws) → spaceless w = true ∧ Forall is_word ws.
Proof.
  revert w ws. induction s as [|c s IH]; intros w ws; cbn [Str.split_scan].
  - by intros [= <- <-].
  - destruct (Str.split_scan s) as [w' ws'].
    destruct (IH w' ws' eq_refl) as [Hw' Hws'].
    destruct (Str.isspace c) eqn:Hc; intros [= <- <-].
    + split; [done|]. apply emit_Forall; [|done]. by split.
    + split; [|done]. cbn [spaceless]. by rewrite Hc, Hw'.
Qed.

(** Every element of [s.split()] is a word. *)
Lemma split_words s : Forall is_word (Str.split s).
Proof.
  unfold Str.split. destruct (Str.split_scan s) as [w ws] eqn:Hscan.
  apply split_scan_words in Hscan as [Hw Hws].
  apply emit_Forall; [|done]. by split.
Qed.

Lemma split_scan_spaceless e :
  spaceless e = true → Str.split_scan e = (e, []).
Proof.
  induction e as [|c e IH]; [done|]. cbn [spaceless Str.split_scan].
  intros [Hc He]%andb_true_iff. rewrite (IH He).
  by destruct (Str.isspace c).
Qed.

Lemma last_emit w x ws : last (Str.emit w (x :: ws)) = last (x :: ws).
Proof. unfold Str.emit. by destruct (Str.is_empty w). Qed.

(** The last word of a text that ends with whitespace followed by a
    word is that word. *)
Lemma split_scan_ends_with s c e :
  Str.isspace c = true → is_word e →
  ∃ w ws, Str.split_scan (s +:+ String c e) = (w, ws) ∧ last ws = Some e.
Proof.
  intros Hc [Hne He]. induction s as [|d s (w & ws & Hscan & Hlast)].
  - change (EmptyString +:+ String c e) with (String c e).
    cbn [Str.split_scan]. rewrite (split_scan_spaceless e He), Hc.
    eexists _, _. split; [done|]. by destruct e.
  - change (String d s +:+ String c e) with (String d (s +:+ String c e)).
    cbn [Str.split_scan]. rewrite Hscan.
    destruct ws as [|x ws]; [done|].
    destruct (Str.isspace d); eexists _, _; (split; [done|]);
      [by rewrite last_emit|done].
Qed.

Lemma split_ends_with s c e :
  Str.isspace c = true → is_word e →
  last (Str.split (s +:+ String c e)) = Some e.
Proof.
  intros Hc He. unfold Str.split.
  destruct (split_scan_ends_with s c e Hc He) as (w & ws & -> & Hlast).
  destruct ws as [|x ws]; [done|]. by rewrite last_emit.
Qed.

Lemma append_assoc (a b c : string) : (a +:+ b) +:+ c = a +:+ b +:+ c.
Proof.
  induction a as [|x a IH]; [done|].
  change (String x ((a +:+ b) +:+ c) = String x (a +:+ b +:+ c)). by rewrite IH.
Qed.

Lemma startswith_app p s : Str.startswith p (p +:+ s) = true.
Proof.
  unfold Str.startswith. induction p as [|x p IH]; [apply prefix_empty|].
  change (String x p +:+ s) with (String x (p +:+ s)).
  by rewrite prefix_cons, Ascii.eqb_refl.
Qed.



(** ** Reading the status output, continued *)


Lemma find_interface_cons line rest :
  find_interface (line :: rest) =
  if Str.startswith "interface: " line
  then Str.last_item (Str.split line) else find_interface rest.
Proof. reflexivity. Qed.

Lemma find_server_public_key_cons line rest :
  find_server_public_key (line :: rest) =
  if Str.startswith "public key: " line
  then Str.last_item (Str.split line) else find_server_public_key rest.
Proof. reflexivity. Qed.

Lemma last_word_is_word line word :
  last (Str.split line) = Some word → is_word word.
Proof.
  intros Hlast%last_Some_elem_of.
  pose proof (split_words line) as Hwords. rewrite Forall_forall in Hwords. auto.
Qed.

(** X2. [find_interface] never raises [IndexError]: either no line starts
    with ["interface: "] and it raises the exception of a missing
    interface, or it returns the last word of the first such line, a
    non-empty text without whitespace. *)
Theorem find_interface_outcome (wg_show_output : list string) :
  (Forall (fun line => Str.startswith "interface: " line = false) wg_show_output ∧
   find_interface wg_show_output = Err InterfaceNotFound) ∨
  (∃ pre line post name,
     wg_show_output = (pre ++ line :: post)%list ∧
     Forall (fun line => Str.startswith "interface: " line = false) pre ∧
     Str.startswith "interface: " line = true ∧
     last (Str.split line) = Some name ∧ is_word name ∧
     find_interface wg_show_output = Ok name).
Proof.
  induction wg_show_output as [|line rest IH]; [by left|].
  rewrite find_interface_cons.
  destruct (Str.startswith "interface: " line) eqn:Hline.
  - right.
    destruct (last_word_of_marked "i" _ line eq_refl Hline) as (name & Hname & Hlast).
    exists [], line, rest, name.
    split_and!; [done|constructor|done|done|by eapply last_word_is_word|done].
  - destruct IH as [[Hnone ->]|(pre & l & post & name & -> & Hpre & Hl & Hlast & Hw & ->)].
    + left. split; [by constructor|done].
    + right. exists (line :: pre), l, post, name.
      split_and!; [done|by constructor|done..].
Qed.

(** X3. [find_server_public_key] likewise: the exception of a missing
    public key when no line starts with ["public key: "], else the last
    word of the first such line. *)
Theorem find_server_public_key_outcome (wg_show_output : list string) :
  (Forall (fun line => Str.startswith "public key: " line = false) wg_show_output ∧
   find_server_public_key wg_show_output = Err PublicKeyNotFound) ∨
  (∃ pre line post key,
     wg_show_output = (pre ++ line :: post)%list ∧
     Forall (fun line => Str.startswith "public key: " line = false) pre ∧
     Str.startswith "public key: " line = true ∧
     last (Str.split line) = Some key ∧ is_word key ∧
     find_server_public_key wg_show_output = Ok key).
Proof.
  induction wg_show_output as [|line rest IH]; [by left|].
  rewrite find_server_public_key_cons.
  destruct (Str.startswith "public key: " line) eqn:Hline.
  - right.
    destruct (last_word_of_marked "p" _ line eq_refl Hline) as (key & Hkey & Hlast).
    exists [], line, rest, key.
    split_and!; [done|constructor|done|done|by eapply last_word_is_word|done].
  - destruct IH as [[Hnone ->]|(pre & l & post & key & -> & Hpre & Hl & Hlast & Hw & ->)].
    + left. split; [by constructor|done].
    + right. exists (line :: pre), l, post, key.
      split_and!; [done|by constructor|done..].
Qed.

(** X4. Of a line that starts with ["allowed ips"] only the last word is
    taken: when the line ends with whitespace followed by a word, that
    word is the entry, whatever stands before it on the line. *)
Theorem find_using_ips_last_word (body e : string) (c : ascii) (rest : list string) :
  Str.isspace c = true → is_word e →
  Str.contains "(none)" ("allowed ips" +:+ body +:+ String c e) = false →
  find_using_ips (("allowed ips" +:+ body +:+ String c e) :: rest)
  = Ok e :: find_using_ips rest.
Proof.
  intros Hc He Hnone. cbn [find_using_ips].
  rewrite startswith_app, Hnone. cbn [andb negb].
  assert (last (Str.split ("allowed ips" +:+ body +:+ String c e)) = Some e) as Hlast.
  { rewrite <- append_assoc. by apply split_ends_with. }
  by rewrite (proj2 (last_item_Ok _ e) Hlast).
Qed.

(** ** Arithmetic of IPv4 addresses and masks *)

Lemma isdigit_value c :
  Str.isdigit c = true → 0 ≤ Z.of_N (N_of_ascii c) - 48 ≤ 9.
Proof.
  unfold Str.isdigit. intros [H1 H2]%andb_true_iff.
  apply N.leb_le in H1, H2. lia.
Qed.

Lemma int_from_nonneg s acc :
  Str.all_digits s = true → 0 ≤ acc → 0 ≤ Str.int_from acc s.
Proof.
  revert acc. induction s as [|c s IH]; intros acc; [done|].
  cbn [Str.all_digits Str.int_from]. intros [Hc Hs]%andb_true_iff Hacc.
  apply IH; [done|]. pose proof (isdigit_value c Hc). lia.
Qed.

Lemma parse_octet_bounds s b : IPv4.parse_octet s = Some b → 0 ≤ b ≤ 255.
Proof.
  unfold IPv4.parse_octet, Str.isascii_isdigit.
  destruct (Str.is_empty s); [done|]. cbn [negb andb].
  destruct (Str.all_digits s) eqn:Hd; [|done]. cbn [negb].
  repeat case_match; try done. intros [= <-].
  split; [by apply int_from_nonneg|lia].
Qed.

Lemma from_bytes_four b0 b1 b2 b3 :
  IPv4.from_bytes [b0; b1; b2; b3]
  = 16777216 * b0 + 65536 * b1 + 256 * b2 + b3.
Proof. unfold IPv4.from_bytes. cbn [fold_left]. lia. Qed.

(** A dotted quad denotes a 32-bit integer. *)
Lemma ip_int_from_string_bounds s n :
  IPv4.ip_int_from_string s = Some n → 0 ≤ n < 2 ^ 32.
Proof.
  unfold IPv4.ip_int_from_string. destruct (Str.is_empty s); [done|].
  destruct (Str.split_on "." s) as [|s0 [|s1 [|s2 [|s3 [|? ?]]]]]; try done.
  cbn [length Nat.eqb negb]. intros (bs & Hbs & ->)%fmap_Some.
  apply mapM_Some_1 in Hbs.
  repeat match goal with
         | H : Forall2 _ (_ :: _) _ |- _ => apply Forall2_cons_inv_l in H as (? & ? & ? & H & ->)
         | H : Forall2 _ [] _ |- _ => apply Forall2_nil_inv_l in H as ->
         | H : IPv4.parse_octet _ = Some _ |- _ => apply parse_octet_bounds in H
         end.
  rewrite from_bytes_four. lia.
Qed.

Lemma address_of_string_bounds s n :
  IPv4.address_of_string s = Some n → 0 ≤ n < 2 ^ 32.
Proof.
  unfold IPv4.address_of_string. destruct (Str.contains "/" s); [done|].
  apply ip_int_from_string_bounds.
Qed.

Lemma bit_length_nonneg n : 0 ≤ IPv4.bit_length n.
Proof.
  unfold IPv4.bit_length. destruct (n =? 0); [done|].
  pose proof (Z.log2_nonneg n). lia.
Qed.

Lemma prefix_from_ip_int_bounds ip p :
  IPv4.prefix_from_ip_int ip = Some p → 0 ≤ p ≤ 32.
Proof.
  unfold IPv4.prefix_from_ip_int, IPv4.count_righthand_zero_bits, IPv4.IPV4LENGTH.
  destruct (negb _); [done|]. intros [= <-].
  destruct (ip =? 0); [lia|].
  pose proof (bit_length_nonneg (Z.land (Z.lnot ip) (ip - 1))). lia.
Qed.

(** Whatever form the mask has, the prefix length is between 0 and 32. *)
Lemma make_netmask_bounds arg p : IPv4.make_netmask arg = Some p → 0 ≤ p ≤ 32.
Proof.
  unfold IPv4.make_netmask, IPv4.prefix_from_prefix_string, IPv4.prefix_from_ip_string.
  destruct (negb (Str.isascii_isdigit arg)).
  - destruct (IPv4.ip_int_from_string arg) as [ip|]; [|done].
    destruct (IPv4.prefix_from_ip_int ip) as [q|] eqn:Hq.
    + intros [= <-]. by eapply prefix_from_ip_int_bounds.
    + apply prefix_from_ip_int_bounds.
  - unfold IPv4.IPV4LENGTH.
    destruct (0 <=? Str.int arg) eqn:H0, (Str.int arg <=? 32) eqn:H32; cbn [andb negb].
    + intros [= <-]. lia.
    + destruct (IPv4.ip_int_from_string arg) as [ip|]; [|done].
      destruct (IPv4.prefix_from_ip_int ip) as [q|] eqn:Hq.
      * intros [= <-]. by eapply prefix_from_ip_int_bounds.
      * apply prefix_from_ip_int_bounds.
    + destruct (IPv4.ip_int_from_string arg) as [ip|]; [|done].
      destruct (IPv4.prefix_from_ip_int ip) as [q|] eqn:Hq.
      * intros [= <-]. by eapply prefix_from_ip_int_bounds.
      * apply prefix_from_ip_int_bounds.
    + destruct (IPv4.ip_int_from_string arg) as [ip|]; [|done].
      destruct (IPv4.prefix_from_ip_int ip) as [q|] eqn:Hq.
      * intros [= <-]. by eapply prefix_from_ip_int_bounds.
      * apply prefix_from_ip_int_bounds.
Qed.

Lemma ALL_ONES_ones : IPv4.ALL_ONES = Z.ones 32.
Proof. reflexivity. Qed.

Lemma testbit_32bit x i : 0 ≤ x < 2 ^ 32 → 32 ≤ i → Z.testbit x i = false.
Proof.
  intros Hx Hi. rewrite <- (Z.mod_small x (2 ^ 32)) by done.
  apply Z.mod_pow2_bits_high. lia.
Qed.

(** The hostmask of a prefix length has its low [32 - p] bits set. *)
Lemma hostmask_ones p :
  0 ≤ p ≤ 32 → Z.lxor (IPv4.ip_int_from_prefix p) IPv4.ALL_ONES = Z.ones (32 - p).
Proof.
  intros Hp. unfold IPv4.ip_int_from_prefix. rewrite ALL_ONES_ones.
  apply Z.bits_inj'. intros i Hi.
  rewrite !Z.lxor_spec, Z.shiftr_spec, !Z.testbit_ones_nonneg by lia.
  destruct (Z.ltb_spec i 32), (Z.ltb_spec (i + p) 32), (Z.ltb_spec i (32 - p));
    try done; lia.
Qed.

(** Masking a 32-bit address with the netmask clears its low [32 - p]
    bits. *)
Lemma land_netmask x p :
  0 ≤ p ≤ 32 → 0 ≤ x < 2 ^ 32 →
  Z.land x (IPv4.ip_int_from_prefix p) = 2 ^ (32 - p) * (x / 2 ^ (32 - p)).
Proof.
  intros Hp Hx.
  transitivity (Z.ldiff x (Z.ones (32 - p))).
  - unfold IPv4.ip_int_from_prefix. rewrite ALL_ONES_ones.
    apply Z.bits_inj'. intros i Hi.
    rewrite Z.land_spec, Z.ldiff_spec, Z.lxor_spec, Z.shiftr_spec,
      !Z.testbit_ones_nonneg by lia.
    destruct (Z.ltb_spec i 32), (Z.ltb_spec (i + p) 32), (Z.ltb_spec i (32 - p));
      try lia; cbn; rewrite ?andb_true_r, ?andb_false_r; try done.
    by rewrite testbit_32bit by (done || lia).
  - rewrite Z.ldiff_ones_r, Z.shiftl_mul_pow2, Z.shiftr_div_pow2 by lia. lia.
Qed.

Lemma lor_disjoint a b : Z.land a b = 0 → Z.lor a b = a + b.
Proof. intros H. by rewrite (Z.add_nocarry_lxor a b H), Z.lxor_lor. Qed.

(** What [IPv4Network] stores for an address [x] and a prefix length
    [p] is a well-formed network that contains [x]. *)
Lemma masked_net_wf x p :
  0 ≤ p ≤ 32 → 0 ≤ x < 2 ^ 32 →
  wf_net (IPv4.Net (Z.land x (IPv4.ip_int_from_prefix p)) p) ∧
  in_net x (IPv4.Net (Z.land x (IPv4.ip_int_from_prefix p)) p).
Proof.
  intros Hp Hx. unfold wf_net, in_net, IPv4.broadcast_address, IPv4.hostmask,
    IPv4.netmask. cbn [IPv4.network_address IPv4.prefixlen].
  rewrite hostmask_ones, land_netmask by done.
  set (k := 32 - p). assert (0 ≤ k ≤ 32) as Hk by lia.
  assert (0 < 2 ^ k) as Hpow by (apply Z.pow_pos_nonneg; lia).
  assert (2 ^ 32 = 2 ^ k * 2 ^ p) as Hsplit.
  { rewrite <- Z.pow_add_r by lia. f_equal. lia. }
  assert (0 < 2 ^ p) as Hpow' by (apply Z.pow_pos_nonneg; lia).
  pose proof (Z.div_mod x (2 ^ k) ltac:(lia)) as Hdm.
  pose proof (Z.mod_pos_bound x (2 ^ k) Hpow) as Hmod.
  assert (0 ≤ x / 2 ^ k < 2 ^ p) as Hq.
  { split; [apply Z.div_pos; lia|]. apply Z.div_lt_upper_bound; lia. }
  rewrite lor_disjoint.
  2: { rewrite Z.land_ones by lia. rewrite Z.mul_comm. apply Z.mod_mul. lia. }
  rewrite Z.ones_equiv. nia.
Qed.

(** Every network [IPv4Network] builds from a text is well-formed. *)
Lemma network_of_string_wf text strict n :
  IPv4.network_of_string text strict = Built n → wf_net n.
Proof.
  unfold IPv4.network_of_string.
  destruct (IPv4.split_addr_prefix text) as [[addr mask]|]; [|done].
  destruct (IPv4.address_of_string addr) as [packed|] eqn:Haddr; [|done].
  apply address_of_string_bounds in Haddr.
  destruct (from_option _ _ mask) as [p|] eqn:Hmask; [|done].
  assert (0 ≤ p ≤ 32) as Hp.
  { destruct mask as [m|]; cbn [from_option] in Hmask.
    - by eapply make_netmask_bounds.
    - injection Hmask as <-. unfold IPv4.IPV4LENGTH. lia. }
  destruct (Z.eqb_spec (Z.land packed (IPv4.ip_int_from_prefix p)) packed) as [Heq|];
    cbn [negb].
  - intros [= <-]. rewrite <- Heq. by apply masked_net_wf.
  - destruct strict; [done|]. intros [= <-]. by apply masked_net_wf.
Qed.

(** The hosts the library enumerates are addresses of the network, and
    outside /31 and /32 neither its first nor its last address. *)
Lemma hosts4_in_net n h :
  wf_net n → h ∈ IPv4.hosts n →
  in_net h n ∧
  (IPv4.prefixlen n ≤ 30 →
   IPv4.network_address n < h < IPv4.broadcast_address n).
Proof.
  intros (Hp & Hnet & Hb & Hlt). unfold IPv4.hosts, IPv4.iter, IPv4.range, in_net,
    IPv4.IPV4LENGTH.
  destruct (Z.eqb_spec (IPv4.prefixlen n) (32 - 1)) as [H31|H31].
  - intros Hh%elem_of_seqZ. split; lia.
  - destruct (Z.eqb_spec (IPv4.prefixlen n) 32) as [H32|H32].
    + intros ->%list_elem_of_singleton. rewrite Hb, H32. split; [|lia].
      change (2 ^ (32 - 32)) with 1. lia.
    + intros Hh%elem_of_seqZ. split; lia.
Qed.

(** The size of the pool: [2^(32-p) - 2] candidates, two for a /31 and
    one for a /32. *)
Lemma hosts4_length n :
  wf_net n →
  Z.of_nat (length (IPv4.hosts n)) =
  if IPv4.prefixlen n =? 31 then 2
  else if IPv4.prefixlen n =? 32 then 1
  else 2 ^ (32 - IPv4.prefixlen n) - 2.
Proof.
  intros (Hp & Hnet & Hb & Hlt). unfold IPv4.hosts, IPv4.iter, IPv4.range,
    IPv4.IPV4LENGTH. change (32 - 1) with 31.
  destruct (Z.eqb_spec (IPv4.prefixlen n) 31) as [H31|H31].
  - rewrite length_seqZ, Hb, H31. change (2 ^ (32 - 31)) with 2. lia.
  - destruct (Z.eqb_spec (IPv4.prefixlen n) 32) as [H32|H32]; [done|].
    rewrite length_seqZ, Hb.
    assert (2 ^ 2 ≤ 2 ^ (32 - IPv4.prefixlen n)) by (apply Z.pow_le_mono_r; lia).
    lia.
Qed.

(** ** Printing an address and reading it back *)

Lemma contains_char_nil c : Str.contains (String c EmptyString) EmptyString = false.
Proof. reflexivity. Qed.

Lemma octets_checked :
  forallb (fun b =>
    match IPv4.parse_octet (Str.of_int b) with
    | Some b' => b' =? b
    | None => false
    end && negb (Str.contains "." (Str.of_int b))
        && negb (Str.contains "/" (Str.of_int b))) (seqZ 0 256) = true.
Proof. by vm_compute. Qed.

(** The decimal text of an octet reads back as that octet and holds
    neither a dot nor a slash. *)
Lemma octet_text b :
  0 ≤ b ≤ 255 →
  IPv4.parse_octet (Str.of_int b) = Some b ∧
  Str.contains "." (Str.of_int b) = false ∧
  Str.contains "/" (Str.of_int b) = false.
Proof.
  intros Hb. pose proof octets_checked as Hall.
  rewrite forallb_forall in Hall. specialize (Hall b).
  rewrite <- list_elem_of_In, elem_of_seqZ in Hall.
  specialize (Hall ltac:(lia)).
  apply andb_true_iff in Hall as [[H1 H2]%andb_true_iff H3].
  apply negb_true_iff in H2, H3.
  destruct (IPv4.parse_octet (Str.of_int b)) as [b'|]; [|done].
  apply Z.eqb_eq in H1 as ->. done.
Qed.

Lemma to_bytes_octets n :
  0 ≤ n < 2 ^ 32 →
  ∃ b0 b1 b2 b3,
    IPv4.to_bytes n = [b0; b1; b2; b3] ∧
    0 ≤ b0 ≤ 255 ∧ 0 ≤ b1 ≤ 255 ∧ 0 ≤ b2 ≤ 255 ∧ 0 ≤ b3 ≤ 255 ∧
    16777216 * b0 + 65536 * b1 + 256 * b2 + b3 = n.
Proof.
  intros Hn. unfold IPv4.to_bytes. eexists _, _, _, _. split; [reflexivity|].
  change 255 with (Z.ones 8). rewrite !Z.land_ones, !Z.shiftr_div_pow2 by lia.
  change (Z.ones 8) with 255. change (2 ^ 8) with 256.
  change (2 ^ 16) with 65536. change (2 ^ 24) with 16777216.
  pose proof (Z.mod_pos_bound n 256 ltac:(lia)).
  pose proof (Z.mod_pos_bound (n / 256) 256 ltac:(lia)).
  pose proof (Z.mod_pos_bound (n / 65536) 256 ltac:(lia)).
  pose proof (Z.mod_pos_bound (n / 16777216) 256 ltac:(lia)).
  pose proof (Z.div_mod n 256 ltac:(lia)).
  pose proof (Z.div_mod (n / 256) 256 ltac:(lia)).
  pose proof (Z.div_mod (n / 65536) 256 ltac:(lia)).
  pose proof (Z.div_mod (n / 16777216) 256 ltac:(lia)).
  assert (n / 256 / 256 = n / 65536) by (rewrite Z.div_div by lia; done).
  assert (n / 65536 / 256 = n / 16777216) by (rewrite Z.div_div by lia; done).
  assert (n / 16777216 / 256 = 0).
  { rewrite Z.div_div by lia. apply Z.div_small. lia. }
  lia.
Qed.

Lemma join_dotted a b c d :
  Str.join "." [a; b; c; d]
  = a +:+ String "." (b +:+ String "." (c +:+ String "." d)).
Proof. reflexivity. Qed.

(** The dotted quad of a 32-bit integer reads back as that integer. *)
Lemma address_of_string_from_ip_int n :
  0 ≤ n < 2 ^ 32 →
  IPv4.address_of_string (IPv4.string_from_ip_int n) = Some n ∧
  Str.contains "/" (IPv4.string_from_ip_int n) = false.
Proof.
  intros Hn. unfold IPv4.string_from_ip_int.
  destruct (to_bytes_octets n Hn)
    as (b0 & b1 & b2 & b3 & -> & Hb0 & Hb1 & Hb2 & Hb3 & Hsum).
  destruct (octet_text b0 Hb0) as (Hp0 & Hd0 & Hs0).
  destruct (octet_text b1 Hb1) as (Hp1 & Hd1 & Hs1).
  destruct (octet_text b2 Hb2) as (Hp2 & Hd2 & Hs2).
  destruct (octet_text b3 Hb3) as (Hp3 & Hd3 & Hs3).
  change (Str.of_int <$> [b0; b1; b2; b3])
    with [Str.of_int b0; Str.of_int b1; Str.of_int b2; Str.of_int b3].
  rewrite join_dotted.
  set (s0 := Str.of_int b0) in *. set (s1 := Str.of_int b1) in *.
  set (s2 := Str.of_int b2) in *. set (s3 := Str.of_int b3) in *.
  assert (Str.contains "/" (s0 +:+ String "." (s1 +:+ String "." (s2 +:+ String "." s3)))
          = false) as Hslash.
  { rewrite !contains_char_app, !contains_char, !contains_char_app, !contains_char,
      !contains_char_app, !contains_char, Hs0, Hs1, Hs2, Hs3. done. }
  split; [|done].
  unfold IPv4.address_of_string, IPv4.ip_int_from_string. rewrite Hslash.
  rewrite (split_on_head "." s0 _ Hd0), (split_on_head "." s1 _ Hd1),
    (split_on_head "." s2 _ Hd2), (split_on_none "." s3 Hd3).
  assert (Str.is_empty (s0 +:+ String "." (s1 +:+ String "." (s2 +:+ String "." s3)))
          = false) as ->.
  { by destruct s0. }
  cbn [length Nat.eqb negb mapM]. rewrite Hp0, Hp1, Hp2, Hp3.
  change (Some (IPv4.from_bytes [b0; b1; b2; b3]) = Some n).
  by rewrite from_bytes_four, Hsum.
Qed.

(** ** The subnet and the addresses drawn from it *)

Section SubnetFacts.
Context `{V6 : IPv6}.

Lemma ip_network_IPv4 text strict n :
  ip_network text strict = Ok (IPv4Network n) →
  IPv4.network_of_string text strict = Built n.
Proof.
  unfold ip_network. destruct (IPv4.network_of_string text strict); [congruence| |done].
  by destruct (network6_of_string text strict).
Qed.

Lemma find_address_lines_inv lines net a :
  find_address_lines lines = Ok (net, a) →
  ∃ ip host, ip_network ip false = Ok net ∧
             Str.first_item (Str.split_on "/" ip) = Ok host ∧
             ip_address host = Ok a.
Proof.
  induction lines as [|line rest IH]; [done|]. cbn [find_address_lines].
  destruct (Str.startswith "Address" line); [|done].
  destruct (Str.last_item _) as [ip|]; [|done]. cbn [rbind].
  destruct (ip_network ip false) as [net'|] eqn:Hnet; [|done]. cbn [rbind].
  destruct (Str.first_item _) as [host|] eqn:Hhost; [|done]. cbn [rbind].
  destruct (ip_address host) as [a'|] eqn:Ha; [|done]. cbn [rbind].
  intros [= <- <-]. eauto.
Qed.

Lemma built_net_contains packed p (strict : bool) n :
  0 ≤ p ≤ 32 → 0 ≤ packed < 2 ^ 32 →
  (if negb (Z.land packed (IPv4.ip_int_from_prefix p) =? packed)
   then if strict then HostBitsSet
        else Built (IPv4.Net (Z.land packed (IPv4.ip_int_from_prefix p)) p)
   else Built (IPv4.Net packed p)) = Built n →
  in_net packed n.
Proof.
  intros Hp Hpacked. pose proof (masked_net_wf packed p Hp Hpacked) as [_ Hin].
  destruct (Z.eqb_spec (Z.land packed (IPv4.ip_int_from_prefix p)) packed) as [Heq|];
    cbn [negb].
  - intros [= <-]. unfold in_net, IPv4.broadcast_address, IPv4.hostmask, IPv4.netmask in *.
    cbn [IPv4.network_address IPv4.prefixlen] in *. by rewrite Heq in Hin.
  - destruct strict; [done|]. by intros [= <-].
Qed.

(** When the loop of [find_address] returns an IPv4 network, the address
    it returns with it is an IPv4 address of that network. *)
Lemma find_address_lines_subnet lines n address :
  find_address_lines lines = Ok (IPv4Network n, address) →
  wf_net n ∧ ∃ a, address = IPv4Address a ∧ in_net a n ∧ 0 ≤ a < 2 ^ 32.
Proof.
  intros (ip & host & Hnet%ip_network_IPv4 & Hhost & Ha)%find_address_lines_inv.
  split; [by eapply network_of_string_wf|].
  unfold IPv4.network_of_string, IPv4.split_addr_prefix in Hnet.
  destruct (Str.split_on "/" ip) as [|x [|m [|? ?]]]; try done;
    injection Hhost as ->;
    (destruct (IPv4.address_of_string host) as [packed|] eqn:Hpacked; [|done]);
    unfold ip_address in Ha; rewrite Hpacked in Ha; injection Ha as <-;
    pose proof (address_of_string_bounds _ _ Hpacked) as Hbounds;
    exists packed; (split; [done|]); (split; [|done]).
  - cbn [from_option] in Hnet.
    eapply (built_net_contains packed IPv4.IPV4LENGTH false); [|done|exact Hnet].
    unfold IPv4.IPV4LENGTH. lia.
  - cbn [from_option] in Hnet.
    destruct (IPv4.make_netmask m) as [p|] eqn:Hp; [|done].
    eapply (built_net_contains packed p false); [|done|exact Hnet].
    by eapply make_netmask_bounds.
Qed.

Lemma find_address_Ok name w tr net a tr' :
  find_address name w tr = (Ok (net, a), tr') →
  ∃ config, file_text w (config_path name) = Some config ∧
            find_address_lines (Str.readlines config) = Ok (net, a).
Proof.
  rewrite find_address_run.
  destruct (file_text w (config_path name)); [|by destruct (undecodable _ _)].
  intros [= Hlines _]. eauto.
Qed.

Lemma find_address_in_hosts4_wf n name w tr tr' address_as_ip :
  find_address name w tr = (Ok (IPv4Network n, address_as_ip), tr') → wf_net n.
Proof.
  intros (config & _ & Hlines)%find_address_Ok.
  by apply find_address_lines_subnet in Hlines as [? _].
Qed.

(** X5. Whenever [find_address] returns an IPv4 network, the network is
    well-formed (prefix length at most 32, 32-bit addresses only, the
    broadcast address [2^(32-p) - 1] above the network address) and the
    address returned with it, the interface's own, is an IPv4 address of
    that network. *)
Theorem find_address_in_subnet
    (name : string) (w : world) (tr tr' : list event) (n : IPv4.net)
    (address_as_ip : IPAddress) :
  find_address name w tr = (Ok (IPv4Network n, address_as_ip), tr') →
  wf_net n ∧ ∃ a, address_as_ip = IPv4Address a ∧ in_net a n ∧ 0 ≤ a < 2 ^ 32.
Proof.
  intros (config & _ & Hlines)%find_address_Ok.
  by eapply find_address_lines_subnet.
Qed.

Lemma find_unused_ip_in_hosts4 U n a :
  find_unused_ip U (IPv4Network n) = Ok a →
  ∃ h, a = IPv4Address h ∧ h ∈ IPv4.hosts n ∧ IPv4Address h ∉ U.
Proof.
  intros (i & Hi & Hfree & _)%find_unused_ip_Ok. cbn [hosts] in Hi.
  apply list_lookup_fmap_Some in Hi as (h & -> & Hh).
  exists h. split_and!; [done| |done]. by eapply list_elem_of_lookup_2.
Qed.

(** X6. On a well-formed IPv4 network the allocator only returns 32-bit
    addresses of that network; up to prefix length 30 it returns neither
    the network address nor the broadcast address. *)
Theorem find_unused_ip_in_subnet (U : gset IPAddress) (n : IPv4.net) (a : IPAddress) :
  wf_net n →
  find_unused_ip U (IPv4Network n) = Ok a →
  ∃ h, a = IPv4Address h ∧ in_net h n ∧ 0 ≤ h < 2 ^ 32 ∧
       (IPv4.prefixlen n ≤ 30 →
        IPv4.network_address n < h < IPv4.broadcast_address n).
Proof.
  intros Hwf (h & -> & Hh & _)%find_unused_ip_in_hosts4.
  destruct (hosts4_in_net n h Hwf Hh) as [Hin Hstrict].
  exists h. split; [done|]. split; [done|]. split; [|done].
  destruct Hwf as (_ & ? & _ & ?). unfold in_net in Hin. lia.
Qed.

(** X7. The pool of a well-formed IPv4 network holds [2^(32-p) - 2]
    addresses, two for a /31 and one for a /32; the allocator returns an
    address as long as fewer addresses than that are used. *)
Theorem find_unused_ip_capacity (U : gset IPAddress) (n : IPv4.net) :
  wf_net n →
  Z.of_nat (size U) <
    (if IPv4.prefixlen n =? 31 then 2
     else if IPv4.prefixlen n =? 32 then 1
     else 2 ^ (32 - IPv4.prefixlen n) - 2) →
  ∃ a, find_unused_ip U (IPv4Network n) = Ok a.
Proof.
  intros Hwf Hsize. rewrite <- (hosts4_length n Hwf) in Hsize.
  destruct (find_unused_ip_first_free n U) as (i & h & Hres & _); [lia|]. eauto.
Qed.

Lemma ip_int_from_prefix_32 : IPv4.ip_int_from_prefix 32 = Z.ones 32.
Proof. reflexivity. Qed.

(** X8. Printing a 32-bit address and reading the text back gives the
    address again, and the text followed by ["/32"] reads as the
    single-address network of that address. *)
Theorem str_address_round_trip (n : Z) :
  0 ≤ n < 2 ^ 32 →
  ip_address (str_address (IPv4Address n)) = Ok (IPv4Address n) ∧
  ip_network (str_address (IPv4Address n) +:+ "/32") false
  = Ok (IPv4Network (IPv4.Net n 32)).
Proof.
  intros Hn. cbn [str_address].
  destruct (address_of_string_from_ip_int n Hn) as [Hparse Hslash].
  split; [by apply ip_address_dotted|].
  rewrite (ip_network_cidr _ "32" n 32 Hparse eq_refl).
  by rewrite ip_int_from_prefix_32, Z.land_ones, Z.mod_small by lia.
Qed.

(** X9. What [make_new_ip] returns for an IPv4 subnet: the dotted quad
    of an address of the subnet followed by ["/32"], a text that
    [ip_network] reads as that single address.  The address is not the
    interface's own, and it is not the address of the last word of any
    line of the status output that starts with ["allowed ips"] and does
    not hold ["(none)"]; addresses listed before the last word of such a
    line are not excluded. *)
Theorem make_new_ip_fresh
    (name : string) (wg_output : list string) (w : world) (tr tr1 tr' : list event)
    (n : IPv4.net) (address_as_ip : IPAddress) (new_ip : string) :
  find_address name w tr = (Ok (IPv4Network n, address_as_ip), tr1) →
  make_new_ip name wg_output w tr = (Ok new_ip, tr') →
  ∃ h, new_ip = IPv4.string_from_ip_int h +:+ "/32" ∧
       in_net h n ∧
       ip_network new_ip false = Ok (IPv4Network (IPv4.Net h 32)) ∧
       IPv4Address h ≠ address_as_ip ∧
       ∀ line entry a,
         line ∈ wg_output → peer_entry line entry → entry_address entry a →
         a ≠ IPv4Address h.
Proof.
  intros Hfind Hrun. rewrite make_new_ip_run, Hfind in Hrun.
  destruct (used_ips_of (find_using_ips wg_output)) as [peers|] eqn:Hpeers; [|done].
  cbn [rbind] in Hrun.
  destruct (find_unused_ip _ _) as [a|] eqn:Halloc; [|done].
  injection Hrun as <- <-.
  pose proof (find_address_in_hosts4_wf n name w tr tr1 address_as_ip Hfind) as Hwf.
  destruct (find_unused_ip_in_hosts4 _ _ _ Halloc) as (h & -> & Hh & Hfree).
  destruct (hosts4_in_net n h Hwf Hh) as [Hin _].
  assert (0 ≤ h < 2 ^ 32) as Hbounds.
  { destruct Hwf as (_ & ? & _ & ?). unfold in_net in Hin. lia. }
  exists h. split; [done|]. split; [done|]. split; [|split].
  - cbn [str_address].
    destruct (address_of_string_from_ip_int h Hbounds) as [Hparse _].
    rewrite (ip_network_cidr _ "32" h 32 Hparse eq_refl).
    by rewrite ip_int_from_prefix_32, Z.land_ones, Z.mod_small by lia.
  - intros <-. apply Hfree. rewrite elem_of_union, elem_of_singleton. by left.
  - intros line entry a Hline Hentry Ha ->. apply Hfree.
    rewrite elem_of_union. right.
    apply (used_ips_of_elem_of _ _ _ Hpeers). exists entry. split; [|done].
    apply find_using_ips_elem_of. eauto.
Qed.

End SubnetFacts.

(** ** The exceptions of the steps *)

Lemma find_interface_Err lines e :
  find_interface lines = Err e → e = InterfaceNotFound.
Proof.
  induction lines as [|line rest IH]; [by intros [= <-]|].
  rewrite find_interface_cons.
  destruct (Str.startswith "interface: " line) eqn:Hline; [|done].
  by destruct (last_word_of_marked "i" _ line eq_refl Hline) as (name & -> & _).
Qed.

Lemma find_server_public_key_Err lines e :
  find_server_public_key lines = Err e → e = PublicKeyNotFound.
Proof.
  induction lines as [|line rest IH]; [by intros [= <-]|].
  rewrite find_server_public_key_cons.
  destruct (Str.startswith "public key: " line) eqn:Hline; [|done].
  by destruct (last_word_of_marked "p" _ line eq_refl Hline) as (key & -> & _).
Qed.

Lemma check_output_Err argv stdin w tr e tr' :
  check_output argv stdin w tr = (Err e, tr') →
  ∃ status, status ≠ 0 ∧ e = CalledProcessError status argv.
Proof.
  unfold check_output. run_unfold. destruct (run_process w argv stdin) as [status out].
  destruct (Z.eqb_spec status 0); [done|]. intros [= <- _]. eauto.
Qed.

Lemma get_wg_show_output_Err w tr e tr' :
  get_wg_show_output w tr = (Err e, tr') →
  e = EmptyStatus ∨ ∃ status, e = CalledProcessError status ["wg"; "show"].
Proof.
  unfold get_wg_show_output. intros Hrun.
  apply bind_inv in Hrun as [(raw & tr1 & _ & Hrun)|(e' & Hrun & [= <-])].
  - revert Hrun. run_unfold. destruct (nonempty _); [done|]. intros [= <- _]. by left.
  - apply check_output_Err in Hrun as (status & _ & ->). eauto.
Qed.

Lemma get_user_run w tr :
  get_user w tr =
  (if Str.is_empty (Str.strip (read_line w "Enter Username: "))
   then Err EmptyUsername
   else Ok (Str.strip (read_line w "Enter Username: ")),
   tr ++ [Prompt "Enter Username: "])%list.
Proof.
  unfold get_user, input. run_unfold.
  by destruct (Str.is_empty (Str.strip (read_line w "Enter Username: "))).
Qed.

Lemma gen_private_key_Err w tr e tr' :
  gen_private_key w tr = (Err e, tr') →
  ∃ status, e = CalledProcessError status ["wg"; "genkey"].
Proof.
  unfold gen_private_key. intros Hrun.
  apply bind_inv in Hrun as [(raw & tr1 & _ & Hrun)|(e' & Hrun & [= <-])]; [done|].
  apply check_output_Err in Hrun as (status & _ & ->). eauto.
Qed.

Lemma gen_public_key_Err private_key w tr e tr' :
  gen_public_key private_key w tr = (Err e, tr') →
  ∃ status, e = CalledProcessError status ["wg"; "pubkey"].
Proof.
  unfold gen_public_key. intros Hrun.
  apply bind_inv in Hrun as [([] & tr1 & _ & Hrun)|(e' & Hrun & _)]; [|done].
  apply bind_inv in Hrun as [(ps_stdout & tr2 & _ & Hrun)|(e' & Hrun & _)]; [|done].
  apply bind_inv in Hrun as [(out & tr3 & _ & Hrun)|(e' & Hrun & [= <-])]; [done|].
  apply check_output_Err in Hrun as (status & _ & ->). eauto.
Qed.

Section StepErrors.
Context `{V6 : IPv6}.

Lemma ip_address_Err text e : ip_address text = Err e → e = ValueError text.
Proof.
  unfold ip_address. destruct (IPv4.address_of_string text); [done|].
  destruct (address6_of_string text); [done|]. by intros [= <-].
Qed.

Lemma ip_network_Err text strict e :
  ip_network text strict = Err e → e = ValueError text.
Proof.
  unfold ip_network. destruct (IPv4.network_of_string text strict); [done| |by intros [= <-]].
  by destruct (network6_of_string text strict); intros [= <-].
Qed.

Lemma first_item_split_on sep s :
  ∃ host, Str.first_item (Str.split_on sep s) = Ok host.
Proof. unfold Str.split_on. destruct (Str.split_on_scan sep s). by eexists. Qed.

(** The loop of [find_address] raises for a missing directive or for a
    value that is not an address with an optional mask. *)
Lemma find_address_lines_Err lines e :
  find_address_lines lines = Err e →
  e = AddressDirectiveMissing ∨ ∃ text, e = ValueError text.
Proof.
  induction lines as [|line rest IH]; [intros [= <-]; by left|].
  cbn [find_address_lines].
  destruct (Str.startswith "Address" line) eqn:Hline; [|done].
  destruct (last_word_of_marked "A" _ line eq_refl Hline) as (ip & -> & _).
  cbn [rbind]. destruct (ip_network ip false) as [net|e'] eqn:Hnet; cbn [rbind].
  - destruct (first_item_split_on "/" ip) as (host & ->). cbn [rbind].
    destruct (ip_address host) as [a|e'] eqn:Ha; cbn [rbind]; [done|].
    intros [= <-]. right. apply ip_address_Err in Ha. eauto.
  - intros [= <-]. right. apply ip_network_Err in Hnet. eauto.
Qed.

Lemma used_ips_of_Err wg_output e :
  used_ips_of (find_using_ips wg_output) = Err e → ∃ text, e = ValueError text.
Proof.
  induction wg_output as [|line rest IH]; [done|]. cbn [find_using_ips].
  destruct (Str.startswith "allowed ips" line) eqn:Hline; [|done].
  destruct (negb (Str.contains "(none)" line)); [|done]. cbn [andb].
  destruct (last_word_of_marked "a" _ line eq_refl Hline) as (ip & -> & _).
  rewrite used_ips_of_cons. cbn [rbind].
  destruct (first_item_split_on "/" ip) as (host & ->). cbn [rbind].
  destruct (ip_address host) as [a|e'] eqn:Ha; cbn [rbind].
  - destruct (used_ips_of _); [done|]. by intros [= <-]; apply IH.
  - intros [= <-]. apply ip_address_Err in Ha. eauto.
Qed.

(** X10. Once the configuration file has been read, [make_new_ip] can
    fail in three ways only: no line of the file starts with ["Address"],
    a value is not an IP address or network ([ValueError]), or the pool
    is exhausted.  It never raises [IndexError], and by then it has probed
    and opened the file and done nothing else. *)
Theorem make_new_ip_errors
    (name : string) (wg_output : list string) (w : world) (tr tr' : list event)
    (config : string) (e : exn) :
  file_text w (config_path name) = Some config →
  make_new_ip name wg_output w tr = (Err e, tr') →
  (e = AddressDirectiveMissing ∨ (∃ text, e = ValueError text) ∨ e = PoolExhausted) ∧
  e ≠ IndexError ∧
  tr' = (tr ++ [IsFile (config_path name); OpenRead (config_path name)])%list.
Proof.
  intros Hfile. rewrite make_new_ip_run, find_address_run, Hfile. intros Hrun.
  assert ((e = AddressDirectiveMissing ∨ (∃ text, e = ValueError text)
           ∨ e = PoolExhausted) ∧
          tr' = (tr ++ [IsFile (config_path name); OpenRead (config_path name)])%list)
    as [He ->].
  { destruct (find_address_lines (Str.readlines config)) as [[address address_as_ip]|e']
      eqn:Hlines.
    - destruct (used_ips_of (find_using_ips wg_output)) as [peers|e'] eqn:Hpeers;
        cbn [rbind] in Hrun.
      + destruct (find_unused_ip _ _) as [a|e'] eqn:Halloc; [done|].
        injection Hrun as <- <-. apply find_unused_ip_Err in Halloc as [-> _].
        split; [by right; right|done].
      + injection Hrun as <- <-. apply used_ips_of_Err in Hpeers.
        split; [by right; left|done].
    - injection Hrun as <- <-. apply find_address_lines_Err in Hlines.
      split; [|done]. destruct Hlines; [by left|by right; left]. }
  split_and!; [done| |done].
  by destruct He as [->|[(text & ->)| ->]].
Qed.

Lemma make_new_ip_early name wg_output w tr e tr' :
  make_new_ip name wg_output w tr = (Err e, tr') → early_error e.
Proof.
  rewrite make_new_ip_run, find_address_run.
  destruct (file_text w (config_path name)) as [config|];
    [|by destruct (undecodable _ _); intros [= <- _]].
  destruct (find_address_lines (Str.readlines config)) as [[address address_as_ip]|e']
    eqn:Hlines.
  - destruct (used_ips_of (find_using_ips wg_output)) as [peers|e'] eqn:Hpeers;
      cbn [rbind].
    + destruct (find_unused_ip _ _) as [a|e'] eqn:Halloc; [done|].
      intros [= <- _]. by apply find_unused_ip_Err in Halloc as [-> _].
    + intros [= <- _]. by apply used_ips_of_Err in Hpeers as (text & ->).
  - intros [= <- _]. by apply find_address_lines_Err in Hlines as [->|(text & ->)].
Qed.

End StepErrors.

(** ** How a run ends *)

Section RunOutcome.
Context `{V6 : IPv6}.

(** A run either stops with an exception of one of the steps before the
    registration, having run neither the registration nor the persist
    command, or it gets to the registration command. *)
Lemma main_reaches_registration w r tr :
  run_main w = (r, tr) →
  (∃ e, r = Err e ∧ early_error e ∧ Forall quiet tr) ∨
  (∃ pre public_key ip name,
     Forall quiet pre ∧
     (insert_new_peer public_key ip name ≫= λ _, save_new_config name) w pre = (r, tr)).
Proof.
  unfold run_main, main. intros Hrun.
  assert (Forall harmless []) as Htr by constructor.
  apply bind_inv in Hrun as [(lines & tr1 & Hstep & Hrun)|(e & Hstep & ->)];
    apply (emits_Forall _ _ _ _ _ _ emits_get_wg_show_output Hstep) in Htr.
  2: { left. exists e. split_and!; [done| |by eapply Forall_impl, harmless_quiet].
       by apply get_wg_show_output_Err in Hstep as [->|(st & ->)]. }
  clear Hstep.
  apply bind_inv in Hrun as [(name & ? & [= Hname <-] & Hrun)|(e & [= He <-] & ->)].
  2: { left. exists e. split_and!; [done| |by eapply Forall_impl, harmless_quiet].
       by apply find_interface_Err in He as ->. }
  apply bind_inv in Hrun as [(key & ? & [= Hkey <-] & Hrun)|(e & [= He <-] & ->)].
  2: { left. exists e. split_and!; [done| |by eapply Forall_impl, harmless_quiet].
       by apply find_server_public_key_Err in He as ->. }
  apply bind_inv in Hrun as [(username & tr2 & Hstep & Hrun)|(e & Hstep & ->)];
    apply (emits_Forall _ _ _ _ _ _ emits_get_user Hstep) in Htr.
  2: { left. exists e. split_and!; [done| |by eapply Forall_impl, harmless_quiet].
       rewrite get_user_run in Hstep. by destruct (Str.is_empty _); simplify_eq. }
  clear Hstep.
  apply bind_inv in Hrun as [(private_key & tr3 & Hstep & Hrun)|(e & Hstep & ->)];
    apply (emits_Forall _ _ _ _ _ _ emits_gen_private_key Hstep) in Htr.
  2: { left. exists e. split_and!; [done| |by eapply Forall_impl, harmless_quiet].
       by apply gen_private_key_Err in Hstep as (st & ->). }
  clear Hstep.
  apply bind_inv in Hrun as [(public_key & tr4 & Hstep & Hrun)|(e & Hstep & ->)];
    apply (emits_Forall _ _ _ _ _ _ (emits_gen_public_key _) Hstep) in Htr.
  2: { left. exists e. split_and!; [done| |by eapply Forall_impl, harmless_quiet].
       by apply gen_public_key_Err in Hstep as (st & ->). }
  clear Hstep.
  apply bind_inv in Hrun as [(ip & tr5 & Hstep & Hrun)|(e & Hstep & ->)];
    apply (emits_Forall _ _ _ _ _ _ (emits_make_new_ip _ _) Hstep) in Htr.
  2: { left. exists e. split_and!; [done| |by eapply Forall_impl, harmless_quiet].
       by eapply make_new_ip_early. }
  clear Hstep. apply (fun H => Forall_impl _ quiet _ H harmless_quiet) in Htr.
  apply bind_inv in Hrun as [([] & tr6 & Hstep & Hrun)|(e & Hstep & ->)];
    pose proof (make_configs_result _ _ _ _ _ _ _ _ Hstep) as Hres;
    apply (emits_Forall _ _ _ _ _ _ (emits_make_configs _ _ _ _) Hstep) in Htr.
  2: { left. exists e. split_and!; [done| |done].
       by destruct Hres as [?|[(errno & path & [= ->])|[[= ->] _]]]. }
  right. by exists tr6, public_key, ip, name.
Qed.

(** X11. A run that ends with an exception that is neither that of the
    registration or the persist step, nor an [OSError], nor a
    [ValueError] (the exceptions that [os.mkdir], [os.chdir] and the
    writing of the client configuration can raise) has changed nothing:
    it has made none of the calls that write an artifact, no directory,
    no file, no QR code, and has run neither the registration nor the
    persist command. *)
Theorem early_failure_changes_nothing (w : world) (e : exn) :
  (run_main w).1 = Err e → early_error e →
  ¬ is_os_error e → ¬ is_value_error e →
  Forall harmless (run_main w).2.
Proof.
  pose proof (main_run_shape w) as Hshape.
  destruct (run_main w) as [r tr]. cbn [fst snd] in *.
  intros -> [Hreg Hpers] Hos _.
  inversion Hshape as [e' tr0 Htr|errno path tr0 Htr|
                      |pre pk ip' name' Hpre Hst Hr]; subst.
  - done.
  - destruct Hos. by exists errno, path.
  - done.
  - destruct (_ =? 0); simplify_eq.
Qed.

(** X12. The two late failures tell what happened to the interface.  A
    run ends with the exception of a failed registration only when the
    registration command was its last event and exited with a non-zero
    status; it ends with the exception of a failed persist only when the
    registration command exited with 0 and the persist command, run
    next and last, did not. *)
Theorem late_failures_distinguished (w : world) :
  ((run_main w).1 = Err RegistrationFailed →
   ∃ pre public_key ip name,
     (run_main w).2
     = (pre ++ [Spawn (wg_set_argv public_key ip name) EmptyString])%list ∧
     Forall quiet pre ∧
     (run_process w (wg_set_argv public_key ip name) EmptyString).1 ≠ 0) ∧
  ((run_main w).1 = Err PersistFailed →
   ∃ pre public_key ip name,
     (run_main w).2
     = (pre ++ [Spawn (wg_set_argv public_key ip name) EmptyString;
                Spawn ["wg-quick"; "save"; name] EmptyString])%list ∧
     Forall quiet pre ∧
     (run_process w (wg_set_argv public_key ip name) EmptyString).1 = 0 ∧
     (run_process w ["wg-quick"; "save"; name] EmptyString).1 ≠ 0).
Proof.
  destruct (run_main w) as [r tr] eqn:Hrun. cbn [fst snd].
  apply main_reaches_registration in Hrun
    as [(e & -> & [Hreg Hpers] & _)|(pre & pk & ip & name & Hpre & Hrun)].
  { split; by intros [= ->]. }
  rewrite bind_run, insert_new_peer_run in Hrun.
  destruct (Z.eqb_spec (run_process w (wg_set_argv pk ip name) EmptyString).1 0)
    as [Hset|Hset].
  - rewrite save_new_config_run, <- app_assoc in Hrun. injection Hrun as <- <-.
    destruct (Z.eqb_spec (run_process w ["wg-quick"; "save"; name] EmptyString).1 0)
      as [Hsave|Hsave]; (split; [done|]); [done|].
    intros _. by exists pre, pk, ip, name.
  - injection Hrun as <- <-. split; [|done].
    intros _. by exists pre, pk, ip, name.
Qed.

End RunOutcome.

(** ** The successful run *)

Lemma check_output_Ok argv stdin w tr out tr' :
  check_output argv stdin w tr = (Ok out, tr') →
  (run_process w argv stdin).1 = 0 ∧ out = (run_process w argv stdin).2 ∧
  tr' = (tr ++ [Spawn argv stdin])%list.
Proof.
  unfold check_output. run_unfold. destruct (run_process w argv stdin) as [status o].
  destruct (Z.eqb_spec status 0); [|done]. by intros [= <- <-].
Qed.

Lemma gen_private_key_Ok w tr private_key tr' :
  gen_private_key w tr = (Ok private_key, tr') →
  private_key = Str.strip (run_process w ["wg"; "genkey"] EmptyString).2 ∧
  tr' = (tr ++ [Spawn ["wg"; "genkey"] EmptyString])%list.
Proof.
  unfold gen_private_key. intros Hrun.
  apply bind_inv in Hrun as [(out & tr1 & Hout & [= <- <-])|(e & _ & [=])].
  by apply check_output_Ok in Hout as (_ & -> & ->).
Qed.

Lemma gen_public_key_Ok private_key w tr public_key tr' :
  gen_public_key private_key w tr = (Ok public_key, tr') →
  public_key
  = Str.strip (run_process w ["wg"; "pubkey"]
                 (run_process w ["echo"; private_key] EmptyString).2).2 ∧
  tr' = (tr ++ [Spawn ["echo"; private_key] EmptyString;
                Spawn ["wg"; "pubkey"]
                  (run_process w ["echo"; private_key] EmptyString).2])%list.
Proof.
  unfold gen_public_key. intros Hrun.
  apply bind_inv in Hrun as [([] & tr1 & [= <-] & Hrun)|(e & _ & [=])].
  apply bind_inv in Hrun as [(ps_stdout & tr2 & [= <- <-] & Hrun)|(e & _ & [=])].
  apply bind_inv in Hrun as [(out & tr3 & Hout & [= <- <-])|(e & _ & [=])].
  apply check_output_Ok in Hout as (_ & -> & ->). by rewrite <- app_assoc.
Qed.

Lemma make_configs_Ok username ip private_key server_public_key w tr tr' :
  make_configs username ip private_key server_public_key w tr = (Ok tt, tr') →
  tr' = (tr ++ [Mkdir username; Chdir username;
                FileWrite (username +:+ ".conf")
                  (make_new_config_file ip private_key server_public_key);
                ShellCmd ("qrencode -o " +:+ username +:+ ".png < " +:+ username
                          +:+ ".conf")])%list.
Proof.
  unfold make_configs, mkdir, chdir, write_text. intros Hrun.
  apply bind_inv in Hrun as [([] & tr1 & Hmk & Hrun)|(e & _ & [=])].
  apply fs_call_Ok in Hmk as ->.
  apply bind_inv in Hrun as [([] & tr2 & Hcd & Hrun)|(e & _ & [=])].
  apply fs_call_Ok in Hcd as ->.
  apply bind_inv in Hrun as [([] & tr3 & Hwr & Hrun)|(e & _ & [=])].
  apply fs_call_Ok in Hwr as ->.
  revert Hrun. unfold make_qr_code, call_shell. run_unfold.
  intros [= <-]. by rewrite <- !app_assoc.
Qed.

Section SuccessfulRun.
Context `{V6 : IPv6}.

Lemma make_new_ip_Ok_trace name wg_output w tr ip tr' :
  make_new_ip name wg_output w tr = (Ok ip, tr') →
  tr' = (tr ++ [IsFile (config_path name); OpenRead (config_path name)])%list.
Proof.
  rewrite make_new_ip_run, find_address_run.
  destruct (file_text w (config_path name)); [|by destruct (undecodable _ _)].
  destruct (find_address_lines _) as [[??]|]; [|done]. by intros [= _ <-].
Qed.

(** X13. A run that returns has done exactly this, in this order: the
    status query, the prompt, the two key commands (the private key
    echoed into [wg pubkey]), the read of the configuration file, the
    client directory, configuration file and QR code, the registration
    and the persist command.  The address in the client configuration is
    the one registered, the private key in it is the one whose public
    key is registered, and both commands exited with status 0. *)
Theorem main_success (w : world) (tr : list event) :
  run_main w = (Ok tt, tr) →
  ∃ lines name key ip tr0,
    let username := Str.strip (read_line w "Enter Username: ") in
    let private_key := Str.strip (run_process w ["wg"; "genkey"] EmptyString).2 in
    let echoed := (run_process w ["echo"; private_key] EmptyString).2 in
    let public_key := Str.strip (run_process w ["wg"; "pubkey"] echoed).2 in
    (get_wg_show_output w []).1 = Ok lines ∧
    find_interface lines = Ok name ∧
    find_server_public_key lines = Ok key ∧
    (make_new_ip name lines w tr0).1 = Ok ip ∧
    tr = [Spawn ["wg"; "show"] EmptyString; Prompt "Enter Username: ";
          Spawn ["wg"; "genkey"] EmptyString;
          Spawn ["echo"; private_key] EmptyString;
          Spawn ["wg"; "pubkey"] echoed;
          IsFile (config_path name); OpenRead (config_path name);
          Mkdir username; Chdir username;
          FileWrite (username +:+ ".conf") (make_new_config_file ip private_key key);
          ShellCmd ("qrencode -o " +:+ username +:+ ".png < " +:+ username
                    +:+ ".conf");
          Spawn (wg_set_argv public_key ip name) EmptyString;
          Spawn ["wg-quick"; "save"; name] EmptyString] ∧
    (run_process w (wg_set_argv public_key ip name) EmptyString).1 = 0 ∧
    (run_process w ["wg-quick"; "save"; name] EmptyString).1 = 0.
Proof.
  unfold run_main, main. intros Hrun.
  apply bind_inv in Hrun as [(lines & tr1 & Hshow & Hrun)|(e & _ & [=])].
  pose proof (get_wg_show_output_trace _ _ _ _ Hshow) as ->.
  apply (f_equal fst) in Hshow. cbn [fst] in Hshow.
  apply bind_inv in Hrun as [(name & ? & [= Hname <-] & Hrun)|(e & _ & [=])].
  apply bind_inv in Hrun as [(key & ? & [= Hkey <-] & Hrun)|(e & _ & [=])].
  apply bind_inv in Hrun as [(username & tr2 & Huser & Hrun)|(e & _ & [=])].
  rewrite get_user_run in Huser.
  destruct (Str.is_empty _); [done|]. injection Huser as <- <-.
  apply bind_inv in Hrun as [(private_key & tr3 & Hpriv & Hrun)|(e & _ & [=])].
  apply gen_private_key_Ok in Hpriv as [-> ->].
  apply bind_inv in Hrun as [(public_key & tr4 & Hpub & Hrun)|(e & _ & [=])].
  apply gen_public_key_Ok in Hpub as [-> ->].
  apply bind_inv in Hrun as [(ip & tr5 & Hip & Hrun)|(e & _ & [=])].
  pose proof (make_new_ip_Ok_trace _ _ _ _ _ _ Hip) as ->.
  apply bind_inv in Hrun as [([] & tr6 & Hconf & Hrun)|(e & _ & [=])].
  apply make_configs_Ok in Hconf as ->.
  rewrite bind_run, insert_new_peer_run in Hrun.
  destruct (_ =? 0) eqn:Hset in Hrun; [|done]. apply Z.eqb_eq in Hset.
  rewrite save_new_config_run in Hrun.
  destruct (_ =? 0) eqn:Hsave in Hrun; [|done]. apply Z.eqb_eq in Hsave.
  injection Hrun as <-.
  eexists lines, name, key, ip, _. cbn zeta.
  split_and!; [done|done|done|by rewrite Hip|done|done|done].
Qed.

End SuccessfulRun.

(** ** The prompt *)

Lemma lstrip_empty s : Str.lstrip s = EmptyString ↔ all_space s = true.
Proof.
  induction s as [|c s IH]; [done|]. cbn [Str.lstrip all_space].
  destruct (Str.isspace c); [done|]. cbn [andb]. split; done.
Qed.

Lemma rstrip_empty s : Str.rstrip s = EmptyString ↔ all_space s = true.
Proof.
  induction s as [|c s IH]; [done|]. cbn [Str.rstrip all_space].
  destruct (Str.isspace c); cbn [andb].
  - rewrite <- IH. destruct (Str.rstrip s); cbn [Str.is_empty]; split; done.
  - split; done.
Qed.

Lemma lstrip_all_space s : all_space (Str.lstrip s) = true → all_space s = true.
Proof.
  induction s as [|c s IH]; [done|]. cbn [Str.lstrip all_space].
  destruct (Str.isspace c) eqn:Hc; [done|]. cbn [all_space]. by rewrite Hc.
Qed.

(** [s.strip()] is empty exactly when [s] is whitespace only. *)
Lemma strip_empty s : Str.strip s = EmptyString ↔ all_space s = true.
Proof.
  unfold Str.strip. rewrite rstrip_empty. split; [apply lstrip_all_space|].
  intros Hs. apply lstrip_empty in Hs. by rewrite Hs.
Qed.

(** X14. [get_user] prompts once.  It raises the assertion error of an
    empty user name exactly when the line typed is whitespace only;
    otherwise it returns the line without its leading and trailing
    whitespace, a non-empty text. *)
Theorem get_user_outcome (w : world) (tr : list event) :
  ∃ r,
    get_user w tr = (r, tr ++ [Prompt "Enter Username: "])%list ∧
    match r with
    | Ok username =>
        username = Str.strip (read_line w "Enter Username: ") ∧
        username ≠ EmptyString ∧ trimmed username ∧
        all_space (read_line w "Enter Username: ") = false
    | Err e =>
        e = EmptyUsername ∧ all_space (read_line w "Enter Username: ") = true
    end.
Proof.
  rewrite get_user_run. eexists. split; [reflexivity|].
  destruct (Str.strip (read_line w "Enter Username: ")) as [|c u] eqn:Hstrip;
    cbn [Str.is_empty].
  - split; [done|]. by apply strip_empty.
  - split_and!; [done|done|rewrite <- Hstrip; apply strip_trimmed|].
    destruct (all_space _) eqn:Hall; [|done].
    apply strip_empty in Hall. congruence.
Qed.

(** ** The client configuration read back *)

Lemma readlines_scan_line a rest :
  Str.contains (String Str.newline EmptyString) a = false →
  Str.readlines_scan (a +:+ String Str.newline rest)
  = (a +:+ String Str.newline EmptyString, Str.readlines rest).
Proof.
  induction a as [|c a IH].
  - intros _. change (EmptyString +:+ String Str.newline rest)
      with (String Str.newline rest).
    cbn [Str.readlines_scan]. rewrite Ascii.eqb_refl. unfold Str.readlines.
    by destruct (Str.readlines_scan rest).
  - rewrite contains_char. intros [Hc Ha]%orb_false_iff.
    change (String c a +:+ String Str.newline rest)
      with (String c (a +:+ String Str.newline rest)).
    cbn [Str.readlines_scan]. rewrite (IH Ha).
    rewrite Ascii.eqb_sym in Hc. by rewrite Hc.
Qed.

(** A line without a line break, followed by one, is the first line. *)
Lemma readlines_line a rest :
  Str.contains (String Str.newline EmptyString) a = false →
  Str.readlines (a +:+ String Str.newline rest)
  = (a +:+ String Str.newline EmptyString) :: Str.readlines rest.
Proof.
  intros Ha. unfold Str.readlines at 1. rewrite (readlines_scan_line a rest Ha).
  unfold Str.emit. by destruct a.
Qed.

Lemma split_scan_trailing s d :
  Str.isspace d = true →
  Str.split_scan (s +:+ String d EmptyString) = Str.split_scan s.
Proof.
  intros Hd. induction s as [|c s IH].
  - change (EmptyString +:+ String d EmptyString) with (String d EmptyString).
    cbn [Str.split_scan]. by rewrite Hd.
  - change (String c s +:+ String d EmptyString)
      with (String c (s +:+ String d EmptyString)).
    cbn [Str.split_scan]. by rewrite IH.
Qed.

Lemma split_trailing s d :
  Str.isspace d = true → Str.split (s +:+ String d EmptyString) = Str.split s.
Proof. intros Hd. unfold Str.split. by rewrite split_scan_trailing. Qed.

Lemma spaceless_no_newline s :
  spaceless s = true → Str.contains (String Str.newline EmptyString) s = false.
Proof.
  induction s as [|c s IH]; [done|]. cbn [spaceless].
  intros [Hc Hs]%andb_true_iff. rewrite contains_char, (IH Hs), orb_false_r.
  destruct (Ascii.eqb_spec Str.newline c) as [<-|]; [|done]. by vm_compute in Hc.
Qed.

Lemma spaceless_app a b : spaceless (a +:+ b) = spaceless a && spaceless b.
Proof.
  induction a as [|c a IH]; [done|].
  change (String c a +:+ b) with (String c (a +:+ b)).
  cbn [spaceless]. by rewrite IH, andb_assoc.
Qed.

Lemma client_config_lines address private_key sever_public_key :
  ∃ rest,
    client_config address private_key sever_public_key
    = "[Interface]" +:+ String Str.newline
        (("Address =" +:+ String " " address) +:+ String Str.newline rest).
Proof.
  eexists. unfold client_config.
  change (nl +:+ ?x) with (String Str.newline x).
  rewrite append_assoc. reflexivity.
Qed.

Lemma one_line_app a b : one_line a → one_line b → one_line (a +:+ b).
Proof. unfold one_line. intros Ha Hb. by rewrite contains_char_app, Ha, Hb. Qed.

Lemma split_on_line a rest :
  one_line a →
  Str.split_on Str.newline (a +:+ nl +:+ rest) = a :: Str.split_on Str.newline rest.
Proof. intros Ha. exact (split_on_head Str.newline a rest Ha). Qed.

Lemma split_on_line_filled a v rest :
  one_line a → one_line v →
  Str.split_on Str.newline (a +:+ v +:+ nl +:+ rest)
  = (a +:+ v) :: Str.split_on Str.newline rest.
Proof.
  intros Ha Hv. rewrite <- append_assoc. by apply split_on_line, one_line_app.
Qed.

(** The lines of the filled-in template when the values hold no line
    feed. *)
Lemma template_lines address private_key sever_public_key :
  one_line address → one_line private_key → one_line sever_public_key →
  Str.split_on Str.newline
    ("            [Interface]" +:+ nl +:+
     "            Address = " +:+ address +:+ nl +:+
     "            PrivateKey = " +:+ private_key +:+ nl +:+
     "            DNS = " +:+ DNS +:+ nl +:+
     "             " +:+ nl +:+
     "            [Peer]" +:+ nl +:+
     "            PublicKey = " +:+ sever_public_key +:+ nl +:+
     "            AllowedIPs = 0.0.0.0/0" +:+ nl +:+
     "            Endpoint = " +:+ ADDRESS)
  = ["            [Interface]";
     "            Address = " +:+ address;
     "            PrivateKey = " +:+ private_key;
     "            DNS = " +:+ DNS;
     "             ";
     "            [Peer]";
     "            PublicKey = " +:+ sever_public_key;
     "            AllowedIPs = 0.0.0.0/0";
     "            Endpoint = " +:+ ADDRESS].
Proof.
  intros Ha Hp Hs.
  rewrite (split_on_line "            [Interface]") by reflexivity.
  rewrite (split_on_line_filled "            Address = " address) by done.
  rewrite (split_on_line_filled "            PrivateKey = " private_key) by done.
  rewrite (split_on_line_filled "            DNS = " DNS) by done.
  rewrite (split_on_line "             ") by reflexivity.
  rewrite (split_on_line "            [Peer]") by reflexivity.
  rewrite (split_on_line_filled "            PublicKey = " sever_public_key) by done.
  rewrite (split_on_line "            AllowedIPs = 0.0.0.0/0") by reflexivity.
  by rewrite (split_on_none Str.newline ("            Endpoint = " +:+ ADDRESS)).
Qed.

(** With values that hold no line feed, every line of the filled-in
    template starts with the twelve spaces of the literal, which
    [textwrap.dedent] removes; the line of spaces becomes empty. *)
Lemma make_new_config_file_one_line address private_key sever_public_key :
  one_line address → one_line private_key → one_line sever_public_key →
  make_new_config_file address private_key sever_public_key
  = client_config address private_key sever_public_key.
Proof.
  intros Ha Hp Hs. unfold make_new_config_file, Textwrap.dedent.
  rewrite (template_lines address private_key sever_public_key Ha Hp Hs).
  reflexivity.
Qed.

Section ConfigReadBack.
Context `{V6 : IPv6}.

(** The loop of [find_address] over the client configuration without
    indentation stops at its ["Address = "] line and reads [address]. *)
Lemma find_address_lines_client_config address private_key sever_public_key :
  is_word address →
  find_address_lines
    (Str.readlines (client_config address private_key sever_public_key))
  = rbind (ip_network address false) (fun net =>
    rbind (Str.first_item (Str.split_on "/" address)) (fun host =>
    rbind (ip_address host) (fun a => Ok (net, a)))).
Proof.
  intros Hword.
  destruct (client_config_lines address private_key sever_public_key)
    as (rest & ->).
  rewrite (readlines_line "[Interface]" _ eq_refl).
  rewrite readlines_line.
  2: { assert (Str.contains (String Str.newline EmptyString) (String " " address)
               = false) as Hline.
       { by rewrite contains_char, (spaceless_no_newline address (proj2 Hword)). }
       rewrite contains_char_app, Hline. reflexivity. }
  cbn [find_address_lines].
  change (Str.startswith "Address" ("[Interface]" +:+ String Str.newline EmptyString))
    with false. cbn iota.
  assert (Str.startswith "Address"
            (("Address =" +:+ String " " address) +:+ String Str.newline EmptyString)
          = true) as ->.
  { rewrite append_assoc. apply (startswith_app "Address"). }
  rewrite (split_trailing _ Str.newline eq_refl).
  by rewrite (proj2 (last_item_Ok _ address))
    by (by apply (split_ends_with "Address =" " " address)).
Qed.

Lemma octets_spaceless :
  forallb (fun b => spaceless (Str.of_int b)) (seqZ 0 256) = true.
Proof. by vm_compute. Qed.

Lemma string_from_ip_int_word h :
  0 ≤ h < 2 ^ 32 → is_word (IPv4.string_from_ip_int h +:+ "/32").
Proof.
  intros Hh. unfold IPv4.string_from_ip_int.
  destruct (to_bytes_octets h Hh)
    as (b0 & b1 & b2 & b3 & -> & Hb0 & Hb1 & Hb2 & Hb3 & _).
  change (Str.of_int <$> [b0; b1; b2; b3])
    with [Str.of_int b0; Str.of_int b1; Str.of_int b2; Str.of_int b3].
  rewrite join_dotted.
  assert (∀ b, 0 ≤ b ≤ 255 → spaceless (Str.of_int b) = true) as Hoct.
  { intros b Hb. pose proof octets_spaceless as Hall.
    rewrite forallb_forall in Hall. apply Hall.
    apply list_elem_of_In, elem_of_seqZ. lia. }
  split.
  - pose proof (Hoct b0 Hb0) as H0. destruct (octet_text b0 Hb0) as (Hp & _).
    destruct (Str.of_int b0); [done|done].
  - rewrite !spaceless_app. cbn [spaceless].
    rewrite !spaceless_app. cbn [spaceless]. rewrite !spaceless_app. cbn [spaceless].
    by rewrite !Hoct.
Qed.

(** X15. When neither key holds a line feed, the client configuration
    [make_new_config_file] produces for the text [h/32] of a 32-bit
    address [h] is the template without its indentation, and it declares
    that address: the loop of [find_address], run over it, returns [h]
    and its single-address network. *)
Theorem client_config_declares_address (h : Z) (private_key sever_public_key : string) :
  0 ≤ h < 2 ^ 32 →
  one_line private_key → one_line sever_public_key →
  make_new_config_file (IPv4.string_from_ip_int h +:+ "/32")
                       private_key sever_public_key
  = client_config (IPv4.string_from_ip_int h +:+ "/32")
                  private_key sever_public_key ∧
  find_address_lines
    (Str.readlines
       (make_new_config_file (IPv4.string_from_ip_int h +:+ "/32")
                             private_key sever_public_key))
  = Ok (IPv4Network (IPv4.Net h 32), IPv4Address h).
Proof.
  intros Hh Hp Hs.
  pose proof (string_from_ip_int_word h Hh) as Hword.
  assert (make_new_config_file (IPv4.string_from_ip_int h +:+ "/32")
                               private_key sever_public_key
          = client_config (IPv4.string_from_ip_int h +:+ "/32")
                          private_key sever_public_key) as Hclean.
  { apply make_new_config_file_one_line; [|done..].
    apply spaceless_no_newline, Hword. }
  split; [done|]. rewrite Hclean.
  rewrite find_address_lines_client_config by done.
  destruct (address_of_string_from_ip_int h Hh) as [Hparse Hslash].
  change (IPv4.string_from_ip_int h +:+ "/32")
    with (IPv4.string_from_ip_int h +:+ "/" +:+ "32").
  rewrite (ip_network_cidr _ "32" h 32 Hparse eq_refl). cbn [rbind].
  rewrite (first_item_host _ "32" Hslash). cbn [rbind].
  rewrite (ip_address_dotted _ h Hparse). cbn [rbind].
  by rewrite ip_int_from_prefix_32, Z.land_ones, Z.mod_small by lia.
Qed.

End ConfigReadBack.

(** ** The preflight check *)

Lemma check_installed_Ok h programs :
  check_installed h programs = Ok tt ↔ Forall (fun p => is_Some (which h p)) programs.
Proof.
  induction programs as [|p rest IH]; [done|]. cbn [check_installed].
  rewrite Forall_cons, <- IH. destruct (which h p); split.
  - intros ?. split; [by eexists|done].
  - by intros [_ ?].
  - done.
  - by intros [[? [=]] _].
Qed.

Lemma check_installed_Err h programs e :
  check_installed h programs = Err e →
  ∃ p, p ∈ programs ∧ which h p = None ∧
       e = AssertionError (repr p +:+ " must be installed.").
Proof.
  induction programs as [|p rest IH]; [done|]. cbn [check_installed].
  destruct (which h p) eqn:Hp.
  - intros (q & Hq & ?)%IH. exists q. split; [by right|done].
  - intros [= <-]. exists p. split; [by left|done].
Qed.

(** X16. Whatever the order in which the set of required programs is
    iterated, [check_requirements] returns exactly when [wg] and
    [qrencode] are both found and the user id is 0.  Otherwise it raises
    an assertion error: that of a missing program when one is missing,
    naming a missing one, else that of missing permissions. *)
Theorem check_requirements_outcome (must_installed : list string) (h : host) :
  must_installed ≡ₚ ["wg"; "qrencode"] →
  (check_requirements must_installed h = Ok tt ↔
   is_Some (which h "wg") ∧ is_Some (which h "qrencode") ∧ getuid h = 0) ∧
  (∀ e, check_requirements must_installed h = Err e →
     (∃ p, (p = "wg" ∨ p = "qrencode") ∧ which h p = None ∧
           e = AssertionError (repr p +:+ " must be installed.")) ∨
     (is_Some (which h "wg") ∧ is_Some (which h "qrencode") ∧ getuid h ≠ 0 ∧
      e = AssertionError
            "You must have super user permissions to run this program.")).
Proof.
  intros Hperm. unfold check_requirements.
  assert (Forall (fun p => is_Some (which h p)) must_installed ↔
          is_Some (which h "wg") ∧ is_Some (which h "qrencode")) as Hall.
  { rewrite Hperm, !Forall_cons, Forall_nil. tauto. }
  split.
  - destruct (check_installed h must_installed) as [[]|e] eqn:Hinst; cbn [rbind].
    + apply check_installed_Ok, Hall in Hinst.
      destruct (Z.eqb_spec (getuid h) 0); split; try done; tauto.
    + split; [done|]. intros (Hwg & Hqr & _).
      assert (check_installed h must_installed = Ok tt) as Hok
        by (apply check_installed_Ok, Hall; done).
      congruence.
  - intros e. destruct (check_installed h must_installed) as [[]|e'] eqn:Hinst;
      cbn [rbind].
    + apply check_installed_Ok, Hall in Hinst as [Hwg Hqr].
      destruct (Z.eqb_spec (getuid h) 0); [done|]. intros [= <-]. by right.
    + intros [= <-]. left.
      apply check_installed_Err in Hinst as (p & Hp & Hnone & ->).
      exists p. split; [|done]. rewrite Hperm in Hp.
      apply elem_of_cons in Hp as [->|Hp]; [by left|].
      apply list_elem_of_singleton in Hp as ->. by right.
Qed.

(** ** Further scenarios, run *)

Section FurtherScenarios.
#[local] Existing Instance no_ipv6.

Lemma wf_net_example : wf_net (IPv4.Net 168440320 24).
Proof. unfold wf_net. vm_compute. repeat split; congruence. Qed.

(** X4 on a line that lists two addresses. *)
Lemma find_using_ips_last_word_witness :
  find_using_ips ["allowed ips: 10.10.50.2/32, 10.10.50.3/32"]
  = [Ok "10.10.50.3/32"].
Proof.
  apply (find_using_ips_last_word ": 10.10.50.2/32," "10.10.50.3/32" " " []);
    [reflexivity|by split|reflexivity].
Defined.

(** X5 in the world of scenario A. *)
Lemma find_address_in_subnet_witness :
  wf_net (IPv4.Net 168440320 24) ∧
  ∃ a, IPv4Address 168440321 = IPv4Address a ∧
       in_net a (IPv4.Net 168440320 24) ∧ 0 ≤ a < 2 ^ 32.
Proof.
  apply (find_address_in_subnet "wg0" (example_world status_A config_A 0) []
           [IsFile "/etc/wireguard/wg0.conf"; OpenRead "/etc/wireguard/wg0.conf"]).
  reflexivity.
Defined.

(** X6 at 10.10.50.0/24 with 10.10.50.1 used. *)
Lemma find_unused_ip_in_subnet_witness :
  ∃ h, IPv4Address 168440322 = IPv4Address h ∧
       in_net h (IPv4.Net 168440320 24) ∧ 0 ≤ h < 2 ^ 32 ∧
       (IPv4.prefixlen (IPv4.Net 168440320 24) ≤ 30 →
        IPv4.network_address (IPv4.Net 168440320 24) < h
        < IPv4.broadcast_address (IPv4.Net 168440320 24)).
Proof.
  apply (find_unused_ip_in_subnet {[IPv4Address 168440321]}).
  - exact wf_net_example.
  - reflexivity.
Defined.

(** X7 at 10.10.50.0/24 with one address used. *)
Lemma find_unused_ip_capacity_witness :
  ∃ a, find_unused_ip {[IPv4Address 168440321]}
         (IPv4Network (IPv4.Net 168440320 24)) = Ok a.
Proof.
  apply find_unused_ip_capacity.
  - exact wf_net_example.
  - rewrite size_singleton. vm_compute. reflexivity.
Defined.

(** X8 at 10.10.50.4. *)
Lemma str_address_round_trip_witness :
  ip_address (str_address (IPv4Address 168440324)) = Ok (IPv4Address 168440324) ∧
  ip_network (str_address (IPv4Address 168440324) +:+ "/32") false
  = Ok (IPv4Network (IPv4.Net 168440324 32)).
Proof. apply str_address_round_trip. lia. Defined.

(** X9 in the world of scenario A. *)
Lemma make_new_ip_fresh_witness :
  ∃ h, "10.10.50.4/32" = IPv4.string_from_ip_int h +:+ "/32" ∧
       in_net h (IPv4.Net 168440320 24) ∧
       ip_network "10.10.50.4/32" false = Ok (IPv4Network (IPv4.Net h 32)) ∧
       IPv4Address h ≠ IPv4Address 168440321 ∧
       ∀ line entry a,
         line ∈ lines_A → peer_entry line entry → entry_address entry a →
         a ≠ IPv4Address h.
Proof.
  apply (make_new_ip_fresh "wg0" lines_A (example_world status_A config_A 0) []
           [IsFile "/etc/wireguard/wg0.conf"; OpenRead "/etc/wireguard/wg0.conf"]
           [IsFile "/etc/wireguard/wg0.conf"; OpenRead "/etc/wireguard/wg0.conf"]);
    reflexivity.
Defined.

(** X10 in scenario D. *)
Lemma make_new_ip_errors_witness :
  (PoolExhausted = AddressDirectiveMissing ∨
   (∃ text, PoolExhausted = ValueError text) ∨ PoolExhausted = PoolExhausted) ∧
  PoolExhausted ≠ IndexError ∧
  [IsFile "/etc/wireguard/wg0.conf"; OpenRead "/etc/wireguard/wg0.conf"]
  = ([] ++ [IsFile (config_path "wg0"); OpenRead (config_path "wg0")])%list.
Proof.
  apply (make_new_ip_errors "wg0" ["allowed ips: 10.10.50.2/32"]
           (example_world status_D config_D 0) [] _ config_D);
    reflexivity.
Defined.

(** X11 in scenario B. *)
Lemma early_failure_changes_nothing_witness :
  Forall harmless (run_main (example_world status_B config_A 0)).2.
Proof.
  apply (early_failure_changes_nothing _ InterfaceNotFound).
  - reflexivity.
  - by split.
  - by intros (errno & path & ?).
  - by intros (text & ?).
Defined.

(** An operator who types [foo/]: the directory is created and entered,
    then the configuration file cannot be created, and the run ends with
    [FileNotFoundError] before the registration. *)
Example run_user_name_with_slash :
  (run_main world_slash).1 = Err (FileNotFoundError "foo/.conf") ∧
  (run_main world_slash).2
  = [Spawn ["wg"; "show"] EmptyString; Prompt "Enter Username: ";
     Spawn ["wg"; "genkey"] EmptyString;
     Spawn ["echo"; "cGVlci1wcml2YXRlLWtleQ="] EmptyString;
     Spawn ["wg"; "pubkey"] ("cGVlci1wcml2YXRlLWtleQ=" +:+ nl);
     IsFile "/etc/wireguard/wg0.conf"; OpenRead "/etc/wireguard/wg0.conf";
     Mkdir "foo/"; Chdir "foo/";
     FileWrite "foo/.conf"
       (client_config "10.10.50.4/32" "cGVlci1wcml2YXRlLWtleQ="
          "c2VydmVyLXB1YmxpYy1rZXk=")].
Proof. split; reflexivity. Qed.

(** A configuration file that is not UTF-8: the run ends when the file
    is read. *)
Example run_undecodable_config :
  run_main world_garbled
  = (Err (UnicodeDecodeError "/etc/wireguard/wg0.conf"),
     [Spawn ["wg"; "show"] EmptyString; Prompt "Enter Username: ";
      Spawn ["wg"; "genkey"] EmptyString;
      Spawn ["echo"; "cGVlci1wcml2YXRlLWtleQ="] EmptyString;
      Spawn ["wg"; "pubkey"] ("cGVlci1wcml2YXRlLWtleQ=" +:+ nl);
      IsFile "/etc/wireguard/wg0.conf"; OpenRead "/etc/wireguard/wg0.conf"]).
Proof. reflexivity. Qed.

(** X12 in scenario A with a registration command that exits with 1. *)
Lemma late_failures_distinguished_witness :
  ∃ pre public_key ip name,
    (run_main (example_world status_A config_A 1)).2
    = (pre ++ [Spawn (wg_set_argv public_key ip name) EmptyString])%list ∧
    Forall quiet pre ∧
    (run_process (example_world status_A config_A 1)
       (wg_set_argv public_key ip name) EmptyString).1 ≠ 0.
Proof.
  destruct (late_failures_distinguished (example_world status_A config_A 1))
    as [Hreg _].
  apply Hreg. reflexivity.
Defined.

(** X13 in scenario A. *)
Lemma main_success_witness :
  ∃ lines name key ip tr0,
    (get_wg_show_output (example_world status_A config_A 0) []).1 = Ok lines ∧
    find_interface lines = Ok name ∧
    find_server_public_key lines = Ok key ∧
    (make_new_ip name lines (example_world status_A config_A 0) tr0).1 = Ok ip ∧
    (run_main (example_world status_A config_A 0)).2
    = [Spawn ["wg"; "show"] EmptyString; Prompt "Enter Username: ";
       Spawn ["wg"; "genkey"] EmptyString;
       Spawn ["echo"; "cGVlci1wcml2YXRlLWtleQ="] EmptyString;
       Spawn ["wg"; "pubkey"] ("cGVlci1wcml2YXRlLWtleQ=" +:+ nl);
       IsFile (config_path name); OpenRead (config_path name);
       Mkdir "alice"; Chdir "alice";
       FileWrite "alice.conf"
         (make_new_config_file ip "cGVlci1wcml2YXRlLWtleQ=" key);
       ShellCmd "qrencode -o alice.png < alice.conf";
       Spawn (wg_set_argv "cGVlci1wdWJsaWMta2V5=" ip name) EmptyString;
       Spawn ["wg-quick"; "save"; name] EmptyString].
Proof.
  destruct (main_success (example_world status_A config_A 0)
              (run_main (example_world status_A config_A 0)).2)
    as (lines & name & key & ip & tr0 & Hshow & Hname & Hkey & Hip & Htr & _).
  { reflexivity. }
  exists lines, name, key, ip, tr0. split_and!; [done..|]. exact Htr.
Defined.

(** X15 at 10.10.50.4. *)
Lemma client_config_declares_address_witness :
  make_new_config_file (IPv4.string_from_ip_int 168440324 +:+ "/32")
    "cGVlci1wcml2YXRlLWtleQ=" "c2VydmVyLXB1YmxpYy1rZXk="
  = client_config (IPv4.string_from_ip_int 168440324 +:+ "/32")
      "cGVlci1wcml2YXRlLWtleQ=" "c2VydmVyLXB1YmxpYy1rZXk=" ∧
  find_address_lines
    (Str.readlines
       (make_new_config_file (IPv4.string_from_ip_int 168440324 +:+ "/32")
          "cGVlci1wcml2YXRlLWtleQ=" "c2VydmVyLXB1YmxpYy1rZXk="))
  = Ok (IPv4Network (IPv4.Net 168440324 32), IPv4Address 168440324).
Proof. apply client_config_declares_address; [lia|reflexivity..]. Defined.

(** A private key of two lines: the second line has no indentation, so
    [textwrap.dedent] finds no common margin and leaves the twelve
    spaces in front of every line; read back, the text has no line that
    starts with ["Address"]. *)
Example make_new_config_file_two_line_key :
  make_new_config_file "10.10.50.4/32" ("a" +:+ nl +:+ "b") "k"
  = "            [Interface]" +:+ nl +:+
    "            Address = 10.10.50.4/32" +:+ nl +:+
    "            PrivateKey = a" +:+ nl +:+
    "b" +:+ nl +:+
    "            DNS = 1.1.1.1" +:+ nl +:+
    nl +:+
    "            [Peer]" +:+ nl +:+
    "            PublicKey = k" +:+ nl +:+
    "            AllowedIPs = 0.0.0.0/0" +:+ nl +:+
    "            Endpoint = <URI>:<PORT>" ∧
  find_address_lines
    (Str.readlines (make_new_config_file "10.10.50.4/32" ("a" +:+ nl +:+ "b") "k"))
  = Err AddressDirectiveMissing.
Proof. split; reflexivity. Qed.

(** X16 with the set iterated as [qrencode], [wg]. *)
Lemma check_requirements_outcome_witness :
  check_requirements ["qrencode"; "wg"] example_host = Ok tt ↔
  is_Some (which example_host "wg") ∧ is_Some (which example_host "qrencode") ∧
  getuid example_host = 0.
Proof.
  apply (check_requirements_outcome ["qrencode"; "wg"] example_host).
  apply Permutation_swap.
Defined.

End FurtherScenarios.
